(** * The process lifecycle orchestrator of xiaozhi-server ([app.py])

    A shallow embedding of [wait_for_exit], [monitor_stdin] and [main] and
    the properties of the orchestrator's startup and shutdown protocol.

    Python strings are kept as their UTF-8 bytes ([string]); the configuration
    is a dictionary of dynamically typed values ([gmap string pyval]);
    coroutines run in a state-and-exception monad whose state carries the
    configuration, the loop's signal handlers, the [asyncio.Event] objects,
    the stimuli still to reach the process, and the trace of what the
    orchestrator did. *)

From Stdlib Require Import ZArith NArith QArith Qminmax String Ascii List Lia Bool.
From stdpp Require Import base gmap strings list.

#[local] Set Warnings "-register-all".
Local Close Scope Q_scope.
Local Open Scope string_scope.
Local Open Scope list_scope.

(** ** Exceptions and the outcome of running code *)

Module Py.

(** The part of Python's exception hierarchy that [app.py] can meet.
    [Other] stands for any further class deriving from [Exception]. *)
Inductive exc_class : Type :=
| BaseException
| Exception
| CancelledError        (* asyncio.CancelledError: a BaseException since 3.8 *)
| KeyboardInterrupt
| SystemExit
| GeneratorExit
| LookupError
| KeyError
| TypeError
| AttributeError
| ValueError
| EOFError
| RuntimeError
| OSError
| Other.

#[global] Instance exc_class_eq_dec : EqDecision exc_class.
Proof. solve_decision. Defined.

(** The direct base class. *)
Definition parent (c : exc_class) : option exc_class :=
  match c with
  | BaseException => None
  | Exception | CancelledError | KeyboardInterrupt | SystemExit
  | GeneratorExit => Some BaseException
  | KeyError => Some LookupError
  | LookupError | TypeError | AttributeError | ValueError | EOFError
  | RuntimeError | OSError | Other => Some Exception
  end.

Fixpoint issubclass_fuel (fuel : nat) (c d : exc_class) : bool :=
  if decide (c = d) then true
  else match fuel with
       | O => false
       | S fuel' =>
           match parent c with
           | Some p => issubclass_fuel fuel' p d
           | None => false
           end
       end.

(** The hierarchy above is three levels deep. *)
Definition issubclass (c d : exc_class) : bool := issubclass_fuel 3 c d.

Record exc : Type := Exc { exc_cls : exc_class; exc_msg : string }.

(** [isinstance(e, d)], the test an [except d:] clause makes. *)
Definition isinstance (e : exc) (d : exc_class) : bool :=
  issubclass (exc_cls e) d.

(** What running a piece of code comes to: it returns, it raises, or the
    coroutine stays suspended for ever at an await that is never resumed. *)
Inductive outcome (A : Type) : Type :=
| Ret (a : A)
| Raise (e : exc)
| Blocked.

Arguments Ret {A} a.
Arguments Raise {A} e.
Arguments Blocked {A}.

(** *** Strings *)

(** [needle in hay] on [str]. *)
Fixpoint str_in (needle hay : string) : bool :=
  String.prefix needle hay ||
  match hay with
  | EmptyString => false
  | String _ rest => str_in needle rest
  end.

(** A UTF-8 continuation byte, [0b10xxxxxx]. *)
Definition is_continuation (c : ascii) : bool :=
  let n := N_of_ascii c in ((128 <=? n) && (n <? 192))%N.

(** [len(s)] counts code points: every byte that starts one. *)
Fixpoint str_len (s : string) : Z :=
  match s with
  | EmptyString => 0
  | String c rest => (if is_continuation c then 0 else 1) + str_len rest
  end.

Fixpoint intersperse (new s : string) : string :=
  match s with
  | EmptyString => new
  | String c rest => new +:+ String c (intersperse new rest)
  end.

(** The scan of [str.replace]: leftmost occurrences, not overlapping.
    [skip] counts the bytes of a matched occurrence still to be dropped. *)
Fixpoint replace_scan (old new : string) (skip : nat) (s : string) : string :=
  match s with
  | EmptyString => EmptyString
  | String c rest =>
      match skip with
      | S k => replace_scan old new k rest
      | O =>
          if String.prefix old s
          then new +:+ replace_scan old new (String.length old - 1) rest
          else String c (replace_scan old new 0 rest)
      end
  end.

(** [s.replace(old, new)]. *)
Definition str_replace (old new s : string) : string :=
  match old with
  | EmptyString => intersperse new s
  | _ => replace_scan old new 0 s
  end.

End Py.

Import Py.

(** ** Configuration values *)

(** What [load_config] hands over: YAML scalars, lists and mappings. *)
Inductive pyval : Type :=
| VNone
| VBool (b : bool)
| VInt (n : Z)
| VStr (s : string)
| VList (l : list pyval)
| VDict (d : gmap string pyval).

Definition type_name (v : pyval) : string :=
  match v with
  | VNone => "NoneType"
  | VBool _ => "bool"
  | VInt _ => "int"
  | VStr _ => "str"
  | VList _ => "list"
  | VDict _ => "dict"
  end.

(** [bool(v)], as [not v] and [if v:] test it. *)
Definition truthy (v : pyval) : bool :=
  match v with
  | VNone => false
  | VBool b => b
  | VInt n => negb (n =? 0)%Z
  | VStr s => negb (String.eqb s EmptyString)
  | VList l => match l with [] => false | _ :: _ => true end
  | VDict d => negb (Nat.eqb (size d) 0)
  end.

(** [len(v)]. *)
Definition py_len (v : pyval) : outcome Z :=
  match v with
  | VStr s => Ret (str_len s)
  | VList l => Ret (Z.of_nat (length l))
  | VDict d => Ret (Z.of_nat (size d))
  | _ => Raise (Exc TypeError ("object of type '" +:+ type_name v +:+ "' has no len()"))
  end.

Definition is_str (needle : string) (v : pyval) : bool :=
  match v with
  | VStr s => String.eqb s needle
  | _ => false
  end.

(** [needle in v] for a [str] needle. *)
Definition py_contains (needle : string) (v : pyval) : outcome bool :=
  match v with
  | VStr s => Ret (str_in needle s)
  | VList l => Ret (existsb (is_str needle) l)
  | VDict d => Ret (bool_decide (is_Some (d !! needle)))
  | _ => Raise (Exc TypeError ("argument of type '" +:+ type_name v +:+ "' is not iterable"))
  end.

(** [v.get(key, dflt)]. *)
Definition py_get (v : pyval) (key : string) (dflt : pyval) : outcome pyval :=
  match v with
  | VDict d => Ret (default dflt (d !! key))
  | _ => Raise (Exc AttributeError ("'" +:+ type_name v +:+ "' object has no attribute 'get'"))
  end.

(** [v.replace(old, new)]. *)
Definition py_replace (v : pyval) (old new : string) : outcome pyval :=
  match v with
  | VStr s => Ret (VStr (str_replace old new s))
  | _ => Raise (Exc AttributeError ("'" +:+ type_name v +:+ "' object has no attribute 'replace'"))
  end.

(** *** [uuid.uuid4().hex] *)

Definition hex_digit (d : N) : ascii :=
  ascii_of_N (if (d <? 10)%N then 48 + d else 87 + d).

Fixpoint hex_acc (digits : nat) (n : N) (acc : string) : string :=
  match digits with
  | O => acc
  | S k => hex_acc k (n / 16)%N (String (hex_digit (n mod 16)%N) acc)
  end.

(** ['%032x' % n]: lower-case hexadecimal, zero-padded to 32 digits. *)
Definition format_032x (n : N) : string :=
  hex_acc (Nat.max 32 (N.to_nat ((N.size n + 3) / 4))) n EmptyString.

(** The integer of a version-4 UUID made from the 16 bytes [rnd] that
    [os.urandom] returned: the variant and version bits are forced. *)
Definition uuid4_int (rnd : N) : N :=
  let i := (rnd mod 2 ^ 128)%N in
  let i := N.ldiff i (N.shiftl 0xc000 48) in
  let i := N.lor i (N.shiftl 0x8000 48) in
  let i := N.ldiff i (N.shiftl 0xf000 64) in
  N.lor i (N.shiftl 4 76).

Definition uuid4_hex (rnd : N) : string := format_032x (uuid4_int rnd).

(** ** Tasks, signals and the event loop *)

Inductive task : Type := stdin_task | xiaozhi_task | ota_task.

#[global] Instance task_eq_dec : EqDecision task.
Proof. solve_decision. Defined.

(** A [Task] object defines neither [__bool__] nor [__len__]: it is true. *)
Definition task_truthy (t : task) : bool := true.

Definition SIGINT : Z := 2.
Definition SIGTERM : Z := 15.

(** An [asyncio.Event]: its flag and the number of coroutines parked in
    [wait()]. *)
Record asyncio_event : Type :=
  { ev_value : bool; ev_waiters : nat }.

(** The callbacks the program registers: the bound method [set] of the
    event stored at [id]. *)
Inductive callback : Type := EventSet (id : nat).

(** What reaches the process while [main] is suspended at an await. *)
Inductive stimulus : Type :=
| Signal (sig : Z)              (* the OS delivers [sig]; the loop runs its handler *)
| Throw (e : exc)               (* [e] is raised in [main] at its await: a cancel
                                   request, or Ctrl-C where no handler is set *)
| StopDone (r : outcome unit).  (* the facade's [stop()] coroutine finishes with [r] *)

(** What the orchestrator does, in the order it does it. *)
Inductive event : Type :=
| ECreateTask (t : task)
| EAddSignalHandler (sig : Z)
| EWake (id : nat)                        (* [set()] resolved a waiter of event [id] *)
| EPrint (s : string)
| ELogError (s : string)
| EStopEnter                              (* [await xiaozhi_server.stop()] begins *)
| EStopExit (r : outcome unit)            (* ... and ends *)
| ECancel (t : task)
| EWaitEnter (ts : list task) (timeout : Q)
| EWaitExit (done pending : list task) (elapsed : Q).

Record state : Type := State
  { config : gmap string pyval;
    events : list asyncio_event;
    signal_handlers : gmap Z callback;
    stimuli : list stimulus;
    trace : list event }.

Definition set_config (c : gmap string pyval) (s : state) : state :=
  State c (events s) (signal_handlers s) (stimuli s) (trace s).

Definition set_events (evs : list asyncio_event) (s : state) : state :=
  State (config s) evs (signal_handlers s) (stimuli s) (trace s).

Definition set_signal_handlers (h : gmap Z callback) (s : state) : state :=
  State (config s) (events s) h (stimuli s) (trace s).

Definition set_stimuli (st : list stimulus) (s : state) : state :=
  State (config s) (events s) (signal_handlers s) st (trace s).

Definition log (evs : list event) (s : state) : state :=
  State (config s) (events s) (signal_handlers s) (stimuli s) (trace s ++ evs).

(** The process as [main] finds it: the loaded configuration, no event, no
    handler, nothing done yet, and [st] still to come. *)
Definition boot (cfg : gmap string pyval) (st : list stimulus) : state :=
  State cfg [] ∅ st [].

(** *** The monad of coroutine bodies *)

Definition M (A : Type) : Type := state → outcome A * state.

#[global] Instance M_ret : MRet M := λ A a s, (Ret a, s).

#[global] Instance M_bind : MBind M := λ A B f m s,
  match m s with
  | (Ret a, s') => f a s'
  | (Raise e, s') => (Raise e, s')
  | (Blocked, s') => (Blocked, s')
  end.

Definition lift {A} (r : outcome A) : M A := λ s, (r, s).

Definition emit (ev : event) : M unit := λ s, (Ret tt, log [ev] s).

(** [try: body / except ...: handler]; [handler e = None] when no clause
    matches [e]. *)
Definition try_except {A} (body : M A) (handler : exc → option (M A)) : M A :=
  λ s,
    match body s with
    | (Raise e, s') =>
        match handler e with
        | Some h => h s'
        | None => (Raise e, s')
        end
    | other => other
    end.

(** [try: body / finally: fin]. The [finally] suite runs when [body] returns
    or raises; what it raises replaces the outcome of [body]. A coroutine that
    is never resumed does not reach it. *)
Definition try_finally {A} (body : M A) (fin : M unit) : M A :=
  λ s,
    match body s with
    | (Blocked, s') => (Blocked, s')
    | (r, s') =>
        match fin s' with
        | (Ret _, s'') => (r, s'')
        | (Raise e, s'') => (Raise e, s'')
        | (Blocked, s'') => (Blocked, s'')
        end
    end.

Fixpoint for_each {A} (l : list A) (body : A → M unit) : M unit :=
  match l with
  | [] => mret tt
  | x :: rest => body x ;; for_each rest body
  end.

(** *** Event-loop primitives *)

(** [asyncio.Event()]: a new object, unset, nobody waiting. *)
Definition new_event : M nat :=
  λ s, (Ret (length (events s)),
        set_events (events s ++ [{| ev_value := false; ev_waiters := 0 |}]) s).

Definition ev_is_set (id : nat) (s : state) : bool :=
  match events s !! id with
  | Some ev => ev_value ev
  | None => false
  end.

(** [Event.set()]: a second call finds the flag up and does nothing; the
    first resolves the future of every waiter. *)
Definition event_set (id : nat) (s : state) : state :=
  match events s !! id with
  | Some ev =>
      if ev_value ev then s
      else log (repeat (EWake id) (ev_waiters ev))
             (set_events
                (<[id := {| ev_value := true; ev_waiters := ev_waiters ev |}]> (events s)) s)
  | None => s
  end.

Definition run_callback (cb : callback) (s : state) : state :=
  match cb with
  | EventSet id => event_set id s
  end.

(** The loop's dispatch of a delivered signal. A signal without a handler in
    the loop is left to the interpreter; if that reaches [main] it does so as
    a [Throw]. *)
Definition deliver (sig : Z) (s : state) : state :=
  match signal_handlers s !! sig with
  | Some cb => run_callback cb s
  | None => s
  end.

(** [loop.add_signal_handler(sig, cb)]: one handler per signal, the last
    registration wins. *)
Definition add_signal_handler (sig : Z) (cb : callback) : M unit :=
  λ s, (Ret tt, log [EAddSignalHandler sig]
                  (set_signal_handlers (<[sig := cb]> (signal_handlers s)) s)).

Definition set_waiters (id : nat) (f : nat → nat) (s : state) : state :=
  match events s !! id with
  | Some ev =>
      set_events
        (<[id := {| ev_value := ev_value ev; ev_waiters := f (ev_waiters ev) |}]> (events s)) s
  | None => s
  end.

Section park.
Context {A : Type}.

(** What the awaited object yields once a handler has run. *)
Variable ready : state → option A.
(** Whether the end of [stop()] resolves this await, and how. *)
Variable completes : outcome unit → option (outcome A).
(** What comes of the await when nothing more reaches the process:
    [Blocked], or the result a timer of the loop gives it. *)
Variable idle : outcome A.

(** A suspended await: stimuli are taken in order until one resolves it. *)
Fixpoint park (st : list stimulus) (s : state) : outcome A * state :=
  match st with
  | [] => (idle, set_stimuli [] s)
  | Signal sig :: rest =>
      let s' := deliver sig s in
      match ready s' with
      | Some a => (Ret a, set_stimuli rest s')
      | None => park rest s'
      end
  | Throw e :: rest => (Raise e, set_stimuli rest s)
  | StopDone r :: rest =>
      match completes r with
      | Some o => (o, set_stimuli rest s)
      | None => park rest s
      end
  end.
End park.

Definition await {A} (ready : state → option A)
    (completes : outcome unit → option (outcome A)) (idle : outcome A) : M A :=
  λ s, park ready completes idle (stimuli s) s.

(** The future of a waiter of event [id]: [True] once the flag is up. *)
Definition ready_when_set (id : nat) : state → option bool :=
  λ s, if ev_is_set id s then Some true else None.

(** [await ev.wait()]: returns at once when the flag is up; else joins the
    waiters until [set()] resolves it, and leaves them on the way out. *)
Definition event_wait (id : nat) : M bool :=
  λ s,
    if ev_is_set id s then (Ret true, s)
    else
      try_finally
        (await (ready_when_set id) (λ _, None) Blocked)
        (λ s', (Ret tt, set_waiters id Nat.pred s'))
        (set_waiters id S s).

(** [await asyncio.Future()]: a future nobody else holds; no stimulus gives
    it a result. *)
Definition await_new_future : M pyval :=
  await (λ _, None) (λ _, None) Blocked.

(** [await xiaozhi_server.stop()]. What is thrown at [main] while it waits
    here goes through the [stop()] coroutine and comes out of the await like
    an exception of [stop()] itself. *)
Definition await_stop : M unit :=
  emit EStopEnter ;;
  ((λ s,
     match await (λ _, None) (λ r, Some r) Blocked s with
     | (Blocked, s') => (Blocked, s')
     | (r, s') => (r, log [EStopExit r] s')
     end) : M unit).

(** [t.cancel()]: a request; the task unwinds at its next suspension. *)
Definition cancel (t : task) : M unit := emit (ECancel t).

(** [asyncio.create_task(...)]. *)
Definition create_task (t : task) : M task :=
  emit (ECreateTask t) ;; mret t.

Definition print (msg : string) : M unit := emit (EPrint msg).

Definition logger_error (msg : string) : M unit := emit (ELogError msg).

(** *** Access to the configuration *)

(** [config.get(key, dflt)]. *)
Definition config_get (key : string) (dflt : pyval) : M pyval :=
  λ s, (Ret (default dflt (config s !! key)), s).

(** [config[key]]. *)
Definition config_getitem (key : string) : M pyval :=
  λ s,
    match config s !! key with
    | Some v => (Ret v, s)
    | None => (Raise (Exc KeyError ("'" +:+ key +:+ "'")), s)
    end.

(** [config[key] = v]. *)
Definition config_setitem (key : string) (v : pyval) : M unit :=
  λ s, (Ret tt, set_config (<[key := v]> (config s)) s).

(** [config[outer][inner] = v]: the dictionary stored under [outer] is
    updated in place. *)
Definition config_setitem_in (outer inner : string) (v : pyval) : M unit :=
  λ s,
    match config s !! outer with
    | None => (Raise (Exc KeyError ("'" +:+ outer +:+ "'")), s)
    | Some (VDict d) =>
        (Ret tt, set_config (<[outer := VDict (<[inner := v]> d)]> (config s)) s)
    | Some (VList _) =>
        (Raise (Exc TypeError "list indices must be integers or slices, not str"), s)
    | Some w =>
        (Raise (Exc TypeError
                  ("'" +:+ type_name w +:+ "' object does not support item assignment")), s)
    end.

(** ** The program *)

(** The marker left in the configuration template where a value has to be
    filled in: U+4F60. *)
Definition marker : string := "你".

Definition placeholder_endpoint : string := "你的接入点 websocket地址".

Definition cancelled_message : string := "任务被取消，清理资源中...".

Definition closed_message : string := "服务器已关闭，程序退出。".

Definition invalid_endpoint_message : string := "mcp接入点不符合规范".

(** [f"停止小智服务器失败: {e}"]. *)
Definition stop_failed_message (e : exc) : string :=
  "停止小智服务器失败: " +:+ exc_msg e.

(** [monitor_stdin()], run against the successive outcomes of
    [await ainput()]. A line read is dropped and the loop goes round; with no
    outcome left the task is parked in [ainput()]. *)
Fixpoint monitor_stdin (reads : list (outcome string)) : outcome pyval :=
  match reads with
  | [] => Blocked
  | Ret _ :: rest => monitor_stdin rest
  | Raise e :: _ => Raise e
  | Blocked :: _ => Blocked
  end.

(** Lines 149 to 152: the guarded call of the facade's [stop()]. *)
Definition stop_xiaozhi_server : M unit :=
  try_except await_stop
    (λ e, if isinstance e Exception
          then Some (logger_error (stop_failed_message e))
          else None).

(** The places where [main] calls into code of other modules. What such a
    call does inside is not the orchestrator's; [main] goes on only if it
    returns. *)
Inductive collaborator : Type :=
| FacadeInit        (* line 61: [XiaozhiServerFacade(config)] *)
| HttpServerInit    (* line 65: [SimpleHttpServer(config)] *)
| AddressBanner     (* lines 70 to 80: [get_local_ip()] and [logger.info] *)
| ProtocolBanner.   (* lines 93 to 141: [get_connection_info()] and the banner *)

Section orchestrator.

(** [sys.platform]. *)
Variable platform : string.
(** The 16 bytes [uuid4] draws from [os.urandom], as an integer. *)
Variable urandom : N.
(** [core.utils.util.validate_mcp_endpoint], the truth value of its result. *)
Variable validate_mcp_endpoint : pyval → outcome bool.
(** The builtin [int()]. *)
Variable py_int : pyval → outcome Z.
(** How each call into collaborator code ends. *)
Variable collaborators : collaborator → outcome unit.
(** When each task is done, counted from the call of [asyncio.wait];
    [None]: never. *)
Variable finish_after : task → option Q.

Definition wait_for_exit : M unit :=
  stop_event ← new_event;
  if negb (String.eqb platform "win32") then
    for_each [SIGINT; SIGTERM]
      (λ sig, add_signal_handler sig (EventSet stop_event)) ;;
    event_wait stop_event ;;
    mret tt
  else
    try_except
      (await_new_future ;; mret tt)
      (λ e, if isinstance e KeyboardInterrupt then Some (mret tt) else None).

Definition finished_by (timeout : Q) (t : task) : bool :=
  match finish_after t with
  | Some d => Qle_bool d timeout
  | None => false
  end.

(** The moment the last of [ts] is done. *)
Definition all_done_at (ts : list task) : Q :=
  fold_right (λ t acc, Qmax (default 0%Q (finish_after t)) acc) 0%Q ts.

(** [await asyncio.wait(ts, timeout=timeout, return_when=ALL_COMPLETED)]:
    returns when every task is done or when the timeout expires, whichever
    is first; it raises no timeout error and cancels nothing. *)
Definition asyncio_wait (ts : list task) (timeout : Q)
    : M (list task * list task) :=
  emit (EWaitEnter ts timeout) ;;
  await (λ _, None) (λ _, None) (Ret tt) ;;
  let done := List.filter (finished_by timeout) ts in
  let pending := List.filter (λ t, negb (finished_by timeout t)) ts in
  let elapsed :=
    match pending with
    | [] => all_done_at ts
    | _ :: _ => timeout
    end in
  emit (EWaitExit done pending elapsed) ;;
  mret (done, pending).

(** The [finally] suite of [main]. *)
Definition shutdown (stdin xiaozhi ota : task) : M unit :=
  stop_xiaozhi_server ;;
  cancel stdin ;;
  cancel xiaozhi ;;
  (if task_truthy ota then cancel ota else mret tt) ;;
  let tasks_to_wait := [stdin; xiaozhi] in
  let tasks_to_wait :=
    if task_truthy ota then (tasks_to_wait ++ [ota])%list else tasks_to_wait in
  asyncio_wait tasks_to_wait 3%Q ;;
  print closed_message.

(** The [try] statement of [main]. *)
Definition serve (stdin xiaozhi ota : task) : M unit :=
  try_finally
    (try_except wait_for_exit
       (λ e, if isinstance e CancelledError
             then Some (print cancelled_message)
             else None))
    (shutdown stdin xiaozhi ota).

(** Lines 52 to 55. *)
Definition derive_auth_key : M unit :=
  manager_api ← config_get "manager-api" (VDict ∅);
  auth_key ← lift (py_get manager_api "secret" (VStr EmptyString));
  fresh ← (if negb (truthy auth_key) then mret true
           else
             n ← lift (py_len auth_key);
             if (n =? 0)%Z then mret true
             else lift (py_contains marker auth_key));
  let auth_key := if fresh : bool then VStr (uuid4_hex urandom) else auth_key in
  config_setitem_in "server" "auth_key" auth_key.

(** Lines 81 to 91. *)
Definition rewrite_mcp_endpoint : M unit :=
  mcp_endpoint ← config_get "mcp_endpoint" VNone;
  usable ← (match mcp_endpoint with
            | VNone => mret false
            | _ => found ← lift (py_contains marker mcp_endpoint); mret (negb found)
            end);
  if usable : bool then
    valid ← lift (validate_mcp_endpoint mcp_endpoint);
    if valid : bool then
      mcp_endpoint ← lift (py_replace mcp_endpoint "/mcp/" "/call/");
      config_setitem "mcp_endpoint" mcp_endpoint
    else
      logger_error invalid_endpoint_message ;;
      config_setitem "mcp_endpoint" (VStr placeholder_endpoint)
  else mret tt.

(** [main()], from the point where it holds the loaded configuration
    (line 47); that configuration is the one of the initial state. *)
Definition main : M unit :=
  derive_auth_key ;;
  stdin ← create_task stdin_task;
  lift (collaborators FacadeInit) ;;
  xiaozhi ← create_task xiaozhi_task;
  lift (collaborators HttpServerInit) ;;
  ota ← create_task ota_task;
  _ ← config_get "read_config_from_api" (VBool false);
  server ← config_getitem "server";
  http_port ← lift (py_get server "http_port" (VInt 8003));
  _ ← lift (py_int http_port);
  lift (collaborators AddressBanner) ;;
  rewrite_mcp_endpoint ;;
  lift (collaborators ProtocolBanner) ;;
  serve stdin xiaozhi ota.

End orchestrator.

(** ** Observations on states and traces *)

(** Nobody is parked in [wait()] on any event. *)
Definition calm (s : state) : Prop :=
  Forall (λ ev, ev_waiters ev = 0) (events s).

(** What [stop_xiaozhi_server] absorbs: a return, or an exception that
    [except Exception] matches. *)
Definition contained (r : outcome unit) : bool :=
  match r with
  | Ret _ => true
  | Raise e => isinstance e Exception
  | Blocked => false
  end.

(** A stimulus that leaves a wait on SIGINT and SIGTERM suspended. *)
Definition quiet_stimulus (x : stimulus) : Prop :=
  match x with
  | Signal sig => sig ≠ SIGINT ∧ sig ≠ SIGTERM
  | Throw _ => False
  | StopDone _ => True
  end.

Definition not_throw (x : stimulus) : Prop :=
  match x with
  | Throw _ => False
  | _ => True
  end.

(** The events of startup: task creation and the endpoint complaint. *)
Definition startup_event (ev : event) : Prop :=
  match ev with
  | ECreateTask _ | ELogError _ => True
  | _ => False
  end.

(** A step of startup: it leaves the events alone and adds startup events
    only. *)
Definition startup_step (s s' : state) : Prop :=
  events s' = events s ∧
  ∃ evs, trace s' = trace s ++ evs ∧ Forall startup_event evs.

Definition is_stop_enter (ev : event) : bool :=
  match ev with EStopEnter => true | _ => false end.

Definition is_cancel (t : task) (ev : event) : bool :=
  match ev with ECancel t' => bool_decide (t' = t) | _ => false end.

Definition is_wait_enter (ev : event) : bool :=
  match ev with EWaitEnter _ _ => true | _ => false end.

Definition is_wake (ev : event) : bool :=
  match ev with EWake _ => true | _ => false end.

Definition count (f : event → bool) (tr : list event) : nat :=
  length (List.filter f tr).

(** Where a run stands with respect to the facade's [stop()]. *)
Inductive stop_phase : Type :=
| BeforeStop     (* not called yet *)
| InStop         (* the await of [stop()] has begun *)
| AfterStop.     (* ... and has ended *)

(** A monitor of the order of shutdown: [stop()] is awaited once, the await
    ends only after it began, and a cancel request comes only after it
    ended. *)
Fixpoint stop_then_cancel (ph : stop_phase) (tr : list event) : bool :=
  match tr with
  | [] => true
  | EStopEnter :: rest =>
      match ph with BeforeStop => stop_then_cancel InStop rest | _ => false end
  | EStopExit _ :: rest =>
      match ph with InStop => stop_then_cancel AfterStop rest | _ => false end
  | ECancel _ :: rest =>
      match ph with AfterStop => stop_then_cancel AfterStop rest | _ => false end
  | _ :: rest => stop_then_cancel ph rest
  end.

(** The secret as the configuration gives it, when the configuration has
    the types [app.py] counts on: [Some None] when there is none (no
    [manager-api] section, no [secret] entry, or a null one), [Some (Some s)]
    for a string, [None] for anything else. *)
Definition configured_secret (cfg : gmap string pyval) : option (option string) :=
  match cfg !! "manager-api" with
  | None => Some None
  | Some (VDict m) =>
      match m !! "secret" with
      | None | Some VNone => Some None
      | Some (VStr sec) => Some (Some sec)
      | Some _ => None
      end
  | Some _ => None
  end.

(** *** The runs of [serve] in closed form

    What [serve] does is fixed by how its three awaits end: [wr] for
    [wait_for_exit], [sr] for [stop()], [jr] for what may be thrown into
    [asyncio.wait]. *)

Definition wait_events (platform : string) (wr : outcome unit) : list event :=
  if negb (String.eqb platform "win32") then
    [EAddSignalHandler SIGINT; EAddSignalHandler SIGTERM] ++
    match wr with Ret _ => [EWake 0] | _ => [] end
  else [].

Section shapes.
Variable platform : string.
Variable finish_after : task → option Q.

Definition wait_exit_event (ts : list task) (timeout : Q) : event :=
  let done := List.filter (finished_by finish_after timeout) ts in
  let pending := List.filter (λ t, negb (finished_by finish_after timeout t)) ts in
  EWaitExit done pending
    match pending with
    | [] => all_done_at finish_after ts
    | _ :: _ => timeout
    end.

Definition shutdown_spec (a b c : task) (sr : outcome unit) (jr : option exc)
    : outcome unit * list event :=
  match sr with
  | Blocked => (Blocked, [EStopEnter])
  | _ =>
      if contained sr then
        let body :=
          [EStopEnter; EStopExit sr] ++
          match sr with Raise e => [ELogError (stop_failed_message e)] | _ => [] end ++
          [ECancel a; ECancel b; ECancel c; EWaitEnter [a; b; c] 3%Q] in
        match jr with
        | Some e' => (Raise e', body)
        | None => (Ret tt, body ++ [wait_exit_event [a; b; c] 3%Q; EPrint closed_message])
        end
      else (sr, [EStopEnter; EStopExit sr])
  end.

Definition serve_spec (a b c : task) (wr sr : outcome unit) (jr : option exc)
    : outcome unit * list event :=
  match wr with
  | Blocked => (Blocked, wait_events platform wr)
  | _ =>
      let cancelled :=
        match wr with Raise e => isinstance e CancelledError | _ => false end in
      let '(o, evs) := shutdown_spec a b c sr jr in
      (match o with
       | Ret _ => if cancelled then Ret tt else wr
       | _ => o
       end,
       wait_events platform wr ++
       (if cancelled then [EPrint cancelled_message] else []) ++ evs)
  end.
End shapes.

(** How the endpoint step may leave the configuration. *)
Definition mcp_rewritten (validate : pyval → outcome bool)
    (c c' : gmap string pyval) : Prop :=
  c' = c ∨
  (∃ ep, c !! "mcp_endpoint" = Some (VStr ep) ∧ validate (VStr ep) = Ret true ∧
         c' = <["mcp_endpoint" := VStr (str_replace "/mcp/" "/call/" ep)]> c) ∨
  (∃ v, c !! "mcp_endpoint" = Some v ∧ validate v = Ret false ∧
        c' = <["mcp_endpoint" := VStr placeholder_endpoint]> c).


(** *** A sample environment *)

Definition demo_config : gmap string pyval :=
  {[ "server" := VDict {[ "http_port" := VInt 8003 ]};
     "manager-api" := VDict {[ "secret" := VStr "s3cret" ]};
     "mcp_endpoint" := VStr "ws://host/mcp/?token=abc" ]}.

Definition demo_validate (v : pyval) : outcome bool :=
  match v with
  | VStr s => Ret (String.prefix "ws" s)
  | _ => Raise (Exc AttributeError "startswith")
  end.

Definition demo_int (v : pyval) : outcome Z :=
  match v with
  | VInt n => Ret n
  | VBool b => Ret (if b then 1 else 0)%Z
  | _ => Raise (Exc TypeError "int()")
  end.

Definition demo_finish (t : task) : option Q :=
  match t with
  | stdin_task => Some (1 # 2)%Q
  | xiaozhi_task => None
  | ota_task => Some 0%Q
  end.

Definition demo_collaborators (c : collaborator) : outcome unit := Ret tt.

Definition demo_main (platform : string) (st : list stimulus) : outcome unit * state :=
  main platform 0 demo_validate demo_int demo_collaborators demo_finish
    (boot demo_config st).

(** *** From the stimuli to the run *)

(** A step of startup seen whole: it touches neither the events, nor the
    signal handlers, nor the stimuli, and adds startup events only. *)
Definition startup_frame (s s' : state) : Prop :=
  events s' = events s ∧
  signal_handlers s' = signal_handlers s ∧
  stimuli s' = stimuli s ∧
  ∃ evs, trace s' = trace s ++ evs ∧ Forall startup_event evs.

Definition only_signal (x : stimulus) : Prop :=
  match x with
  | Signal _ => True
  | _ => False
  end.

(** A stimulus that leaves [wait_for_exit] suspended on [platform]. *)
Definition leaves_waiting (platform : string) (x : stimulus) : Prop :=
  if String.eqb platform "win32" then not_throw x else quiet_stimulus x.

(** A stimulus that ends the wait of [wait_for_exit] on [platform]. *)
Definition ends_wait (platform : string) (x : stimulus) : Prop :=
  match x with
  | Signal sig => String.eqb platform "win32" = false ∧ (sig = SIGINT ∨ sig = SIGTERM)
  | Throw _ => True
  | StopDone _ => False
  end.

(** How [wait_for_exit] ends when [x] ends its wait. *)
Definition wait_result (platform : string) (x : stimulus) : outcome unit :=
  match x with
  | Throw e =>
      if String.eqb platform "win32" && isinstance e KeyboardInterrupt
      then Ret tt else Raise e
  | _ => Ret tt
  end.

(** How [main] ends after a shutdown that ran to its end, when [x] ended
    the wait. *)
Definition exit_outcome (platform : string) (x : stimulus) : outcome unit :=
  match wait_result platform x with
  | Raise e => if isinstance e CancelledError then Ret tt else Raise e
  | o => o
  end.

(** * Properties *)

(** ** The definitions at work *)

Example issubclass_KeyError : issubclass KeyError Exception = true.
Proof. reflexivity. Qed.

Example issubclass_CancelledError : issubclass CancelledError Exception = false.
Proof. reflexivity. Qed.

Example str_replace_mcp :
  str_replace "/mcp/" "/call/" "ws://h/mcp/?t=/mcp/x" = "ws://h/call/?t=/call/x".
Proof. reflexivity. Qed.

Example str_replace_overlap : str_replace "aa" "b" "aaa" = "ba".
Proof. reflexivity. Qed.

Example str_replace_empty_pattern : str_replace EmptyString "-" "abc" = "-a-b-c-".
Proof. reflexivity. Qed.

Example str_len_code_points : str_len placeholder_endpoint = 17%Z.
Proof. reflexivity. Qed.

Example uuid4_hex_zero : uuid4_hex 0 = "00000000000040008000000000000000".
Proof. reflexivity. Qed.

Example run_failed_stop :
  let r := demo_main "linux"
             [Signal 1; Signal SIGINT; Signal SIGTERM;
              StopDone (Raise (Exc RuntimeError "boom")); Signal SIGINT] in
  fst r = Ret tt ∧
  trace (snd r) =
    [ECreateTask stdin_task; ECreateTask xiaozhi_task; ECreateTask ota_task;
     EAddSignalHandler SIGINT; EAddSignalHandler SIGTERM; EWake 0;
     EStopEnter; EStopExit (Raise (Exc RuntimeError "boom"));
     ELogError (stop_failed_message (Exc RuntimeError "boom"));
     ECancel stdin_task; ECancel xiaozhi_task; ECancel ota_task;
     EWaitEnter [stdin_task; xiaozhi_task; ota_task] 3%Q;
     EWaitExit [stdin_task; ota_task] [xiaozhi_task] 3%Q;
     EPrint closed_message].
Proof. split; reflexivity. Qed.

Example run_no_signal : fst (demo_main "linux" [Signal 1; StopDone (Ret tt)]) = Blocked.
Proof. reflexivity. Qed.

(** ** Runs of the awaits *)

Lemma event_set_calm id s :
  calm s →
  calm (event_set id s) ∧ trace (event_set id s) = trace s ∧
  config (event_set id s) = config s ∧
  signal_handlers (event_set id s) = signal_handlers s ∧
  stimuli (event_set id s) = stimuli s.
Proof.
  intros Hc. unfold event_set.
  destruct (events s !! id) as [ev|] eqn:Hev; [|done].
  destruct (ev_value ev); [done|].
  assert (Hw : ev_waiters ev = 0).
  { unfold calm in Hc. rewrite Forall_lookup in Hc. by apply (Hc id ev). }
  rewrite Hw. simpl. rewrite app_nil_r. split_and!; try done.
  unfold calm; simpl. by apply Forall_insert.
Qed.

Lemma deliver_calm sig s :
  calm s →
  calm (deliver sig s) ∧ trace (deliver sig s) = trace s ∧
  config (deliver sig s) = config s ∧
  signal_handlers (deliver sig s) = signal_handlers s ∧
  stimuli (deliver sig s) = stimuli s.
Proof.
  intros Hc. unfold deliver.
  destruct (signal_handlers s !! sig) as [[id]|]; [|done].
  by apply event_set_calm.
Qed.

Lemma park_calm {A} (ready : state → option A) completes idle st s r s' :
  calm s →
  park ready completes idle st s = (r, s') →
  calm s' ∧ trace s' = trace s ∧ config s' = config s ∧
  signal_handlers s' = signal_handlers s.
Proof.
  revert s. induction st as [|x st IH]; intros s Hc Hp; simpl in Hp.
  - by inversion Hp; subst.
  - destruct x as [sig|e|ro].
    + destruct (deliver_calm sig s Hc) as (Hc' & Ht & Hcfg & Hh & _).
      destruct (ready (deliver sig s)).
      * inversion Hp; subst. simpl. done.
      * destruct (IH _ Hc' Hp) as (? & ? & ? & ?). split_and!; congruence.
    + by inversion Hp; subst.
    + destruct (completes ro).
      * by inversion Hp; subst.
      * by apply IH.
Qed.

Lemma park_wait st : ∀ s r s',
  events s = [{| ev_value := false; ev_waiters := 1 |}] →
  park (ready_when_set 0) (λ _, None) Blocked st s = (r, s') →
  config s' = config s ∧ signal_handlers s' = signal_handlers s ∧
  ((r = Ret true ∧ events s' = [{| ev_value := true; ev_waiters := 1 |}] ∧
    trace s' = trace s ++ [EWake 0]) ∨
   ((∀ b, r ≠ Ret b) ∧ events s' = events s ∧ trace s' = trace s)).
Proof.
  induction st as [|x st IH]; intros s r s' Hev Hp; simpl in Hp.
  - inversion Hp; subst. simpl. split_and!; try done. right. done.
  - destruct x as [sig|e|ro].
    + unfold deliver in Hp.
      destruct (signal_handlers s !! sig) as [[id]|] eqn:Hh.
      * simpl in Hp. unfold event_set in Hp. rewrite Hev in Hp.
        destruct id as [|id]; simpl in Hp.
        -- unfold ready_when_set, ev_is_set in Hp. simpl in Hp.
           inversion Hp; subst. simpl. split_and!; try done. left. done.
        -- unfold ready_when_set at 1 in Hp. unfold ev_is_set in Hp.
           rewrite Hev in Hp. simpl in Hp. by apply IH.
      * unfold ready_when_set at 1 in Hp. unfold ev_is_set in Hp.
        rewrite Hev in Hp. simpl in Hp. by apply IH.
    + inversion Hp; subst. simpl. split_and!; try done. right. done.
    + by apply IH.
Qed.

Lemma bind_eq {A B} (m : M A) (f : A → M B) s :
  (m ≫= f) s =
  match m s with
  | (Ret a, s') => f a s'
  | (Raise e, s') => (Raise e, s')
  | (Blocked, s') => (Blocked, s')
  end.
Proof. reflexivity. Qed.

Lemma wait_for_exit_shape platform s r s' :
  events s = [] →
  wait_for_exit platform s = (r, s') →
  config s' = config s ∧
  trace s' = trace s ++ wait_events platform r ∧
  (r ≠ Blocked → calm s').
Proof.
  intros Hev Hw. unfold wait_for_exit, wait_events in *.
  rewrite bind_eq in Hw. unfold new_event in Hw. rewrite Hev in Hw. simpl in Hw.
  destruct (negb (String.eqb platform "win32")).
  - rewrite bind_eq in Hw. simpl in Hw.
    rewrite !bind_eq in Hw. simpl in Hw.
    unfold event_wait, ev_is_set in Hw. simpl in Hw.
    unfold try_finally, await in Hw. simpl in Hw.
    match type of Hw with context [park ?a ?b ?c ?d ?e] =>
      destruct (park a b c d e) as [r0 s0] eqn:Hp end.
    apply park_wait in Hp; [|reflexivity].
    destruct Hp as (Hc & Hh & [(-> & He & Ht)|(Hn & He & Ht)]).
    + unfold set_waiters in Hw. rewrite He in Hw. simpl in Hw.
      inversion Hw; subst. simpl. rewrite Ht. simpl.
      split_and!; try done.
      * by rewrite <- !app_assoc.
      * intros _. unfold calm. simpl. by repeat constructor.
    + destruct r0 as [b|e|].
      * by destruct (Hn b).
      * unfold set_waiters in Hw. rewrite He in Hw. simpl in Hw.
        inversion Hw; subst. simpl. rewrite Ht. simpl.
        split_and!; try done.
        -- by rewrite <- !app_assoc.
        -- intros _. unfold calm. simpl. by repeat constructor.
      * inversion Hw; subst. rewrite Ht. simpl. split_and!; try done.
        by rewrite <- !app_assoc.
  - unfold try_except in Hw. rewrite bind_eq in Hw.
    unfold await_new_future, await in Hw. simpl in Hw.
    match type of Hw with context [park ?a ?b ?c ?d ?e] =>
      destruct (park a b c d e) as [r0 s0] eqn:Hp end.
    apply park_calm in Hp; [|unfold calm; simpl; by repeat constructor].
    destruct Hp as (Hcalm & Ht & Hc & Hh). simpl in *.
    rewrite app_nil_r.
    destruct r0 as [v|e|].
    + inversion Hw; subst. done.
    + destruct (isinstance e KeyboardInterrupt); inversion Hw; subst; done.
    + inversion Hw; subst. done.
Qed.

Lemma deliver_after_set sig s ev :
  events s = [ev] → ev_value ev = true → deliver sig s = s.
Proof.
  intros Hev Hv. unfold deliver.
  destruct (signal_handlers s !! sig) as [[id]|]; [|done].
  simpl. unfold event_set. rewrite Hev.
  destruct id as [|id]; simpl; [by rewrite Hv|done].
Qed.

Lemma wait_for_exit_returned platform s s' :
  events s = [] →
  signal_handlers s = ∅ →
  wait_for_exit platform s = (Ret tt, s') →
  ∀ sig, deliver sig s' = s'.
Proof.
  intros Hev Hh Hw. unfold wait_for_exit in Hw.
  rewrite bind_eq in Hw. unfold new_event in Hw. rewrite Hev in Hw. simpl in Hw.
  destruct (negb (String.eqb platform "win32")).
  - rewrite bind_eq in Hw. simpl in Hw.
    rewrite !bind_eq in Hw. simpl in Hw.
    unfold event_wait, ev_is_set in Hw. simpl in Hw.
    unfold try_finally, await in Hw. simpl in Hw.
    match type of Hw with context [park ?a ?b ?c ?d ?e] =>
      destruct (park a b c d e) as [r0 s0] eqn:Hp end.
    apply park_wait in Hp; [|reflexivity].
    destruct Hp as (_ & _ & [(-> & He & _)|(Hn & _ & _)]).
    + unfold set_waiters in Hw. rewrite He in Hw. simpl in Hw.
      inversion Hw; subst. intros sig.
      by apply (deliver_after_set _ _ {| ev_value := true; ev_waiters := 0 |}).
    + destruct r0 as [b|e|]; [by destruct (Hn b)| |]; simpl in Hw.
      * destruct (events s0 !! 0); simpl in Hw; discriminate.
      * discriminate.
  - unfold try_except in Hw. rewrite bind_eq in Hw.
    unfold await_new_future, await in Hw. simpl in Hw.
    match type of Hw with context [park ?a ?b ?c ?d ?e] =>
      destruct (park a b c d e) as [r0 s0] eqn:Hp end.
    apply park_calm in Hp; [|unfold calm; simpl; by repeat constructor].
    destruct Hp as (_ & _ & _ & Hh0). simpl in Hh0.
    assert (Hs' : signal_handlers s' = ∅).
    { destruct r0 as [v|e|]; [| |discriminate].
      - inversion Hw; subst. congruence.
      - destruct (isinstance e KeyboardInterrupt); inversion Hw; subst. congruence. }
    intros sig. unfold deliver. by rewrite Hs', lookup_empty.
Qed.

Lemma await_stop_calm s r s' :
  calm s →
  await_stop s = (r, s') →
  calm s' ∧ config s' = config s ∧
  trace s' = trace s ++ EStopEnter :: match r with Blocked => [] | _ => [EStopExit r] end.
Proof.
  intros Hc Hs. unfold await_stop in Hs. rewrite bind_eq in Hs. simpl in Hs.
  unfold await in Hs.
  match type of Hs with context [park ?a ?b ?c ?d ?e] =>
    destruct (park a b c d e) as [r0 s0] eqn:Hp end.
  apply park_calm in Hp; [|done]. destruct Hp as (Hc' & Ht & Hcf & _). simpl in *.
  destruct r0; inversion Hs; subst; simpl; rewrite Ht, <- ?app_assoc; done.
Qed.

Lemma asyncio_wait_calm finish_after ts timeout s r s' :
  calm s →
  asyncio_wait finish_after ts timeout s = (r, s') →
  config s' = config s ∧
  ((∃ e, r = Raise e ∧ trace s' = trace s ++ [EWaitEnter ts timeout]) ∨
   (∃ dp, r = Ret dp ∧
      trace s' = trace s ++ [EWaitEnter ts timeout; wait_exit_event finish_after ts timeout])).
Proof.
  intros Hc Hs. unfold asyncio_wait in Hs. rewrite bind_eq in Hs. simpl in Hs.
  rewrite bind_eq in Hs. unfold await in Hs.
  match type of Hs with context [park ?a ?b ?c ?d ?e] =>
    destruct (park a b c d e) as [r0 s0] eqn:Hp end.
  assert (Hnb : r0 ≠ Blocked).
  { clear -Hp. simpl in Hp. revert Hp. generalize (log [EWaitEnter ts timeout] s).
    generalize (stimuli s). intros st. induction st as [|[sig|e|ro] st IH]; intros s1 Hp;
      simpl in Hp; try (inversion Hp; subst; done); eauto. }
  apply park_calm in Hp; [|done]. destruct Hp as (Hc' & Ht & Hcf & _). simpl in *.
  destruct r0; [|inversion Hs; subst; eauto|done].
  rewrite bind_eq in Hs. simpl in Hs. inversion Hs; subst. simpl. split; [done|].
  right. eexists. split; [done|]. rewrite Ht, <- !app_assoc. done.
Qed.

#[local] Arguments asyncio_wait : simpl never.
#[local] Arguments await_stop : simpl never.
#[local] Arguments shutdown : simpl never.
#[local] Arguments wait_for_exit : simpl never.

Lemma shutdown_shape finish_after a b c s r s' :
  calm s →
  shutdown finish_after a b c s = (r, s') →
  config s' = config s ∧
  ∃ sr jr, r = fst (shutdown_spec finish_after a b c sr jr) ∧
           trace s' = trace s ++ snd (shutdown_spec finish_after a b c sr jr).
Proof.
  intros Hc Hs. unfold shutdown in Hs. rewrite bind_eq in Hs.
  unfold stop_xiaozhi_server, try_except in Hs.
  destruct (await_stop s) as [sr s1] eqn:Hstop.
  apply await_stop_calm in Hstop; [|done]. destruct Hstop as (Hc1 & Hcf1 & Ht1).
  assert (Hrest : ∀ s2 : state, calm s2 → config s2 = config s →
    ∀ r s', (cancel a ;; cancel b ;; (if task_truthy c then cancel c else mret tt) ;;
       asyncio_wait finish_after
         (if task_truthy c then [a; b] ++ [c] else [a; b]) 3%Q ;;
       print closed_message) s2 = (r, s') →
    config s' = config s ∧
    ∃ jr, r = match jr with Some e' => Raise e' | None => Ret tt end ∧
      trace s' = trace s2 ++
        [ECancel a; ECancel b; ECancel c; EWaitEnter [a; b; c] 3%Q] ++
        match jr with
        | Some _ => []
        | None => [wait_exit_event finish_after [a; b; c] 3%Q; EPrint closed_message]
        end).
  { clear. intros s2 Hc2 Hcf2 r s' H. repeat (rewrite bind_eq in H; simpl in H).
    match type of H with context [asyncio_wait ?f ?ts ?t ?st] =>
      destruct (asyncio_wait f ts t st) as [rj sj] eqn:Hj end.
    apply asyncio_wait_calm in Hj; [|done].
    destruct Hj as (Hcfj & [(e & -> & Htj)|(dp & -> & Htj)]); simpl in *.
    - inversion H; subst. split; [congruence|]. exists (Some e).
      rewrite Htj, <- !app_assoc. done.
    - inversion H; subst. simpl. split; [congruence|]. exists None.
      rewrite Htj, <- !app_assoc. done. }
  destruct sr as [[]|e|].
  - apply Hrest in Hs; [|done|done]. destruct Hs as (Hcf & jr & -> & Ht).
    split; [done|]. exists (Ret tt), jr. simpl. rewrite Ht, Ht1, <- !app_assoc.
    by destruct jr.
  - destruct (isinstance e Exception) eqn:He.
    + unfold logger_error, emit in Hs. cbn beta iota in Hs.
      apply Hrest in Hs; [|done|done]. destruct Hs as (Hcf & jr & -> & Ht).
      split; [done|]. exists (Raise e), jr. simpl. rewrite He, Ht. simpl.
      rewrite Ht1, <- !app_assoc. by destruct jr.
    + inversion Hs; subst. split; [done|]. exists (Raise e), None. simpl. rewrite He. done.
  - inversion Hs; subst. split; [done|]. exists Blocked, None. done.
Qed.

Lemma calm_log evs s : calm s → calm (log evs s).
Proof. done. Qed.

Lemma serve_shape platform finish_after a b c s r s' :
  events s = [] →
  serve platform finish_after a b c s = (r, s') →
  config s' = config s ∧
  ∃ wr sr jr, r = fst (serve_spec platform finish_after a b c wr sr jr) ∧
              trace s' = trace s ++ snd (serve_spec platform finish_after a b c wr sr jr).
Proof.
  intros Hev Hs. unfold serve, try_finally, try_except in Hs.
  destruct (wait_for_exit platform s) as [wr s1] eqn:Hw.
  apply wait_for_exit_shape in Hw; [|done]. destruct Hw as (Hcf1 & Ht1 & Hcalm).
  destruct wr as [[]|e|].
  - destruct (shutdown finish_after a b c s1) as [r2 s2] eqn:Hsh.
    apply shutdown_shape in Hsh; [|by apply Hcalm].
    destruct Hsh as (Hcf2 & sr & jr & -> & Ht2).
    split; [destruct (fst _); inversion Hs; subst; congruence|].
    exists (Ret tt), sr, jr. unfold serve_spec.
    destruct (shutdown_spec finish_after a b c sr jr) as [o evs]; simpl in *.
    rewrite Ht1 in Ht2.
    destruct o; inversion Hs; subst; rewrite Ht2, <- !app_assoc; done.
  - destruct (isinstance e CancelledError) eqn:He.
    + unfold print, emit in Hs. cbn beta iota in Hs.
      match type of Hs with context [shutdown ?f ?x ?y ?z ?st] =>
        destruct (shutdown f x y z st) as [r2 s2] eqn:Hsh end.
      apply shutdown_shape in Hsh; [|by apply calm_log, Hcalm].
      destruct Hsh as (Hcf2 & sr & jr & -> & Ht2).
      split; [destruct (fst _); inversion Hs; subst; simpl in *; congruence|].
      exists (Raise e), sr, jr. unfold serve_spec. rewrite He.
      destruct (shutdown_spec finish_after a b c sr jr) as [o evs]; simpl in *.
      rewrite Ht1 in Ht2.
      destruct o; inversion Hs; subst; rewrite Ht2, <- !app_assoc; done.
    + destruct (shutdown finish_after a b c s1) as [r2 s2] eqn:Hsh.
      apply shutdown_shape in Hsh; [|by apply Hcalm].
      destruct Hsh as (Hcf2 & sr & jr & -> & Ht2).
      split; [destruct (fst _); inversion Hs; subst; congruence|].
      exists (Raise e), sr, jr. unfold serve_spec. rewrite He.
      destruct (shutdown_spec finish_after a b c sr jr) as [o evs]; simpl in *.
      rewrite Ht1 in Ht2.
      destruct o; inversion Hs; subst; rewrite Ht2, <- !app_assoc; done.
  - inversion Hs; subst. split; [done|]. exists Blocked, Blocked, None. done.
Qed.

Lemma config_setitem_in_run outer inner v s r s' :
  config_setitem_in outer inner v s = (r, s') →
  events s' = events s ∧ trace s' = trace s ∧
  ((r ≠ Ret tt ∧ config s' = config s) ∨
   (∃ d, r = Ret tt ∧ config s !! outer = Some (VDict d) ∧
         config s' = <[outer := VDict (<[inner := v]> d)]> (config s))).
Proof.
  unfold config_setitem_in. intros H.
  destruct (config s !! outer) as [[| | | | |d]|] eqn:Hc; inversion H; subst;
    simpl; split_and!; try done; try (left; done).
  right. by exists d.
Qed.

Lemma derive_auth_key_run urandom s r s' :
  derive_auth_key urandom s = (r, s') →
  events s' = events s ∧ trace s' = trace s ∧
  ((r ≠ Ret tt ∧ config s' = config s) ∨
   (∃ d v, r = Ret tt ∧ config s !! "server" = Some (VDict d) ∧
           config s' = <["server" := VDict (<["auth_key" := v]> d)]> (config s))).
Proof.
  unfold derive_auth_key. intros H.
  rewrite bind_eq in H. unfold config_get in H. cbn beta iota in H.
  rewrite bind_eq in H. unfold lift in H at 1. cbn beta iota in H.
  destruct (py_get _ _ _) as [auth_key|e|]; [| inversion H; subst; by eauto ..].
  rewrite bind_eq in H.
  match type of H with context [config_setitem_in] =>
    match type of H with (match ?m s with _ => _ end) = _ =>
      destruct (m s) as [r1 s1] eqn:H1 end end.
  assert (s1 = s) as ->.
  { destruct (negb (truthy auth_key)); [by inversion H1|].
    rewrite bind_eq in H1. unfold lift in H1. cbn beta iota in H1.
    destruct (py_len auth_key); [|by inversion H1..].
    destruct (a =? 0)%Z; by inversion H1. }
  destruct r1 as [fresh|e|]; [| inversion H; subst; by eauto ..].
  apply config_setitem_in_run in H. destruct H as (? & ? & [[? ?]|(d & ? & ? & ?)]).
  - split_and!; try done. by left.
  - split_and!; try done. right. eauto.
Qed.

Lemma rewrite_mcp_endpoint_run validate s r s' :
  rewrite_mcp_endpoint validate s = (r, s') →
  events s' = events s ∧
  (∃ evs, trace s' = trace s ++ evs ∧ Forall startup_event evs) ∧
  (config s' = config s ∨
   (∃ ep, config s !! "mcp_endpoint" = Some (VStr ep) ∧
          validate (VStr ep) = Ret true ∧
          config s' = <["mcp_endpoint" := VStr (str_replace "/mcp/" "/call/" ep)]> (config s)) ∨
   (∃ v, config s !! "mcp_endpoint" = Some v ∧
         validate v = Ret false ∧
         config s' = <["mcp_endpoint" := VStr placeholder_endpoint]> (config s))).
Proof.
  unfold rewrite_mcp_endpoint. intros H.
  assert (Hnil : ∃ evs, trace s = trace s ++ evs ∧ Forall startup_event evs).
  { exists []. by rewrite app_nil_r. }
  rewrite bind_eq in H. unfold config_get in H. cbn beta iota in H.
  destruct (config s !! "mcp_endpoint") as [v|] eqn:Hv; simpl in H;
    [|inversion H; subst; by eauto].
  rewrite bind_eq in H.
  match type of H with (match ?m s with _ => _ end) = _ =>
    destruct (m s) as [r1 s1] eqn:H1 end.
  assert (s1 = s) as ->.
  { destruct v; try by inversion H1.
    all: rewrite bind_eq in H1; unfold lift in H1; cbn beta iota in H1;
      destruct (py_contains marker _); by inversion H1. }
  destruct r1 as [[]|e|]; [| inversion H; subst; by eauto ..].
  rewrite bind_eq in H. unfold lift in H at 1. cbn beta iota in H.
  destruct (validate v) as [[]|e|] eqn:Hval; [| | inversion H; subst; by eauto ..].
  - rewrite bind_eq in H. unfold lift in H. cbn beta iota in H.
    destruct v; simpl in H; inversion H; subst; simpl; try by eauto.
    split_and!; [done|done|]. right; left. eauto.
  - rewrite bind_eq in H. simpl in H. inversion H; subst. simpl.
    split_and!; [done| |].
    + eexists. split; [done|]. by repeat constructor.
    + right; right. eauto.
Qed.

#[local] Arguments derive_auth_key : simpl never.
#[local] Arguments rewrite_mcp_endpoint : simpl never.
#[local] Arguments serve : simpl never.

(** *** Stepping through [main] *)

Lemma bind_inv {A B} (m : M A) (f : A → M B) s r s' :
  (m ≫= f) s = (r, s') →
  (∃ a s1, m s = (Ret a, s1) ∧ f a s1 = (r, s')) ∨
  ((∀ v, r ≠ Ret v) ∧ ∃ r0, m s = (r0, s')).
Proof.
  rewrite bind_eq. destruct (m s) as [[a|e|] s1]; intros H.
  - left. by exists a, s1.
  - inversion H; subst. right. split; [done|by eexists].
  - inversion H; subst. right. split; [done|by eexists].
Qed.

Lemma startup_step_refl s : startup_step s s.
Proof. split; [done|]. exists []. by rewrite app_nil_r. Qed.

Lemma startup_step_trans s1 s2 s3 :
  startup_step s1 s2 → startup_step s2 s3 → startup_step s1 s3.
Proof.
  intros (He1 & evs1 & Ht1 & Hf1) (He2 & evs2 & Ht2 & Hf2). split; [congruence|].
  exists (evs1 ++ evs2). rewrite Ht2, Ht1, <- app_assoc. split; [done|].
  by apply Forall_app.
Qed.

Lemma startup_step_lift {A} (o : outcome A) s r s' :
  lift o s = (r, s') → startup_step s s'.
Proof. intros H. inversion H; subst. apply startup_step_refl. Qed.

Lemma startup_step_config_get key dflt s r s' :
  config_get key dflt s = (r, s') → startup_step s s'.
Proof. intros H. inversion H; subst. apply startup_step_refl. Qed.

Lemma startup_step_config_getitem key s r s' :
  config_getitem key s = (r, s') → startup_step s s'.
Proof.
  unfold config_getitem. intros H.
  destruct (config s !! key); inversion H; subst; apply startup_step_refl.
Qed.

Lemma startup_step_create_task t s r s' :
  create_task t s = (r, s') → startup_step s s'.
Proof.
  intros H. inversion H; subst. split; [done|].
  exists [ECreateTask t]. split; [done|]. by repeat constructor.
Qed.

Lemma startup_step_derive_auth_key urandom s r s' :
  derive_auth_key urandom s = (r, s') → startup_step s s'.
Proof.
  intros H. apply derive_auth_key_run in H. destruct H as (He & Ht & _).
  split; [done|]. exists []. by rewrite app_nil_r.
Qed.

Lemma startup_step_rewrite_mcp_endpoint validate s r s' :
  rewrite_mcp_endpoint validate s = (r, s') → startup_step s s'.
Proof.
  intros H. apply rewrite_mcp_endpoint_run in H. by destruct H as (He & Ht & _).
Qed.

Ltac startup_lemma H :=
  try match type of H with
      | create_task ?t _ = (Ret ?a, _) =>
          assert (a = t) as -> by (by inversion H)
      end;
  match type of H with
  | create_task _ _ = _ => apply startup_step_create_task in H
  | config_getitem _ _ = _ => apply startup_step_config_getitem in H
  | config_get _ _ _ = _ => apply startup_step_config_get in H
  | derive_auth_key _ _ = _ => apply startup_step_derive_auth_key in H
  | rewrite_mcp_endpoint _ _ = _ => apply startup_step_rewrite_mcp_endpoint in H
  | lift _ _ = _ => apply startup_step_lift in H
  end.

Lemma main_shape platform urandom validate py_int collaborators finish_after s r s' :
  events s = [] →
  main platform urandom validate py_int collaborators finish_after s = (r, s') →
  ∃ pre, Forall startup_event pre ∧
    ((trace s' = trace s ++ pre ∧ ∀ v, r ≠ Ret v) ∨
     (∃ wr sr jr,
        r = fst (serve_spec platform finish_after stdin_task xiaozhi_task ota_task wr sr jr) ∧
        trace s' = trace s ++ pre ++
          snd (serve_spec platform finish_after stdin_task xiaozhi_task ota_task wr sr jr))).
Proof.
  intros Hev H. unfold main in H.
  pose proof (startup_step_refl s) as Hacc.
  repeat
    (apply bind_inv in H;
     destruct H as [(?a & ?s & Hm & H)|(Hnr & r0 & Hm)];
     [ startup_lemma Hm; pose proof (startup_step_trans _ _ _ Hacc Hm) as Hacc';
       clear Hacc Hm; rename Hacc' into Hacc
     | startup_lemma Hm; destruct (startup_step_trans _ _ _ Hacc Hm) as (_ & evs & Ht & Hf);
       exists evs; split; [done|left; done] ]).
  destruct Hacc as (He & evs & Ht & Hf).
  simpl in H. apply serve_shape in H; [|congruence].
  destruct H as (_ & wr & sr & jr & -> & Ht').
  exists evs. split; [done|right]. exists wr, sr, jr. split; [done|].
  rewrite Ht', Ht, <- !app_assoc. done.
Qed.

Lemma stop_then_cancel_sound pre : ∀ ph t post,
  stop_then_cancel ph (pre ++ ECancel t :: post) = true →
  match ph with
  | AfterStop => True
  | InStop => ∃ r, In (EStopExit r) pre
  | BeforeStop => In EStopEnter pre ∧ ∃ r, In (EStopExit r) pre
  end.
Proof.
  induction pre as [|ev pre IH]; intros ph t post Hm.
  - by destruct ph.
  - destruct ev; simpl in Hm;
      try (specialize (IH ph t post Hm); destruct ph; [|destruct IH as [r ?]|done];
           [destruct IH as (? & r & ?); split; [by right|exists r; by right]
           |exists r; by right]).
    + destruct ph; try done. destruct (IH InStop t post Hm) as [r Hr].
      split; [by left|]. exists r. by right.
    + destruct ph; try done. exists r. by left.
    + by destruct ph.
Qed.

Lemma stop_then_cancel_startup pre : ∀ ph tr,
  Forall startup_event pre →
  stop_then_cancel ph (pre ++ tr) = stop_then_cancel ph tr.
Proof.
  induction pre as [|ev pre IH]; intros ph tr Hpre; [done|].
  inversion Hpre; subst. destruct ev; try done; simpl; by apply IH.
Qed.

Lemma count_app f l1 l2 : count f (l1 ++ l2) = count f l1 + count f l2.
Proof. unfold count. by rewrite List.filter_app, length_app. Qed.

Lemma count_startup f pre :
  Forall startup_event pre →
  (∀ ev, startup_event ev → f ev = false) →
  count f pre = 0.
Proof.
  intros Hpre Hf. induction Hpre as [|ev pre Hev _ IH]; [done|].
  unfold count in *. cbn [List.filter]. by rewrite (Hf ev Hev).
Qed.

Lemma In_startup ev pre tr :
  Forall startup_event pre → ¬ startup_event ev →
  In ev (pre ++ tr) → In ev tr.
Proof.
  intros Hpre Hev Hin. apply in_app_or in Hin. destruct Hin as [Hin|]; [|done].
  rewrite Forall_forall in Hpre. destruct Hev. apply Hpre. by apply list_elem_of_In.
Qed.

Ltac shape_cases platform wr sr jr :=
  unfold serve_spec, shutdown_spec, wait_events, contained;
  destruct (negb (String.eqb platform "win32"));
  destruct wr as [[]|?e|];
  try match goal with
      | |- context [isinstance ?x CancelledError] =>
          destruct (isinstance x CancelledError)
      end;
  destruct sr as [[]|?e|];
  try match goal with
      | |- context [isinstance ?x Exception] =>
          destruct (isinstance x Exception) eqn:?
      end;
  destruct jr; simpl.

(** C1 (amended). In every run of [main], a task is sent a cancel request
    only after the await of the facade's [stop()] has begun and ended; and
    whenever [stop()] returned or raised an exception derived from
    [Exception], the request goes to each of the three tasks. *)
Theorem C1_cancel_follows_stop platform urandom validate py_int collaborators finish_after cfg st :
  let tr := trace (snd (main platform urandom validate py_int collaborators finish_after
                          (boot cfg st))) in
  (∀ pre t post, tr = pre ++ ECancel t :: post →
     In EStopEnter pre ∧ ∃ r, In (EStopExit r) pre) ∧
  (∀ r, In (EStopExit r) tr → contained r = true →
     In (ECancel stdin_task) tr ∧ In (ECancel xiaozhi_task) tr ∧
     In (ECancel ota_task) tr).
Proof.
  intros tr. subst tr.
  destruct (main _ _ _ _ _ _ _) as [o s] eqn:Hm. simpl.
  apply main_shape in Hm; [|done].
  destruct Hm as (pre0 & Hpre & [[Ht _]|(wr & sr & jr & _ & Ht)]); simpl in Ht; rewrite Ht.
  - split.
    + intros pre t post Heq.
      assert (Hin : In (ECancel t) pre0) by (rewrite Heq; apply in_elt).
      rewrite Forall_forall in Hpre. by apply list_elem_of_In, Hpre in Hin.
    + intros r Hin. rewrite Forall_forall in Hpre.
      by apply list_elem_of_In, Hpre in Hin.
  - split.
    + intros pre t post Heq.
      assert (Hmon : stop_then_cancel BeforeStop
                (pre0 ++ snd (serve_spec platform finish_after stdin_task xiaozhi_task
                                ota_task wr sr jr)) = true).
      { rewrite stop_then_cancel_startup by done.
        shape_cases platform wr sr jr; reflexivity. }
      rewrite Heq in Hmon. exact (stop_then_cancel_sound _ _ _ _ Hmon).
    + intros r Hin Hc. apply In_startup in Hin; [|done|by intros []].
      rewrite !in_app_iff.
      revert Hin. shape_cases platform wr sr jr; intros Hin;
        repeat (destruct Hin as [Hin|Hin]; try discriminate Hin; try done);
        try (inversion Hin; subst; simpl in Hc; congruence);
        split_and!; right; simpl; tauto.
Qed.

Ltac in_list := vm_compute; intuition (discriminate || congruence).

(** C1 without the proviso fails: on Windows a first Ctrl-C ends the wait,
    a second one makes [stop()] fail with [KeyboardInterrupt], and no task
    is sent a cancel request. *)
Lemma C1_interrupted_stop_skips_cancel :
  let tr := trace (snd (demo_main "win32"
                          [Throw (Exc KeyboardInterrupt EmptyString);
                           StopDone (Raise (Exc KeyboardInterrupt EmptyString))])) in
  In (EStopExit (Raise (Exc KeyboardInterrupt EmptyString))) tr ∧
  ¬ In (ECancel stdin_task) tr ∧ ¬ In (ECancel xiaozhi_task) tr ∧
  ¬ In (ECancel ota_task) tr.
Proof. in_list. Qed.

(** An instance of C1: [stop()] fails with a [RuntimeError], the three
    requests are sent. *)
Lemma C1_cancel_follows_stop_witness :
  let tr := trace (snd (demo_main "linux"
                          [Signal SIGINT; StopDone (Raise (Exc RuntimeError "boom"))])) in
  In (ECancel stdin_task) tr ∧ In (ECancel xiaozhi_task) tr ∧ In (ECancel ota_task) tr.
Proof.
  apply (proj2 (C1_cancel_follows_stop "linux" 0 demo_validate demo_int demo_collaborators
                  demo_finish demo_config
                  [Signal SIGINT; StopDone (Raise (Exc RuntimeError "boom"))])
           (Raise (Exc RuntimeError "boom"))).
  - in_list.
  - reflexivity.
Defined.

(** Splits an explicit trace after a prefix of up to ten events. *)
Ltac after_prefix pre0 :=
  let close := (try eexists; rewrite <- ?app_assoc; simpl; reflexivity) in
  first
    [ exists pre0; close
    | eexists (pre0 ++ [_]); close
    | eexists (pre0 ++ [_; _]); close
    | eexists (pre0 ++ [_; _; _]); close
    | eexists (pre0 ++ [_; _; _; _]); close
    | eexists (pre0 ++ [_; _; _; _; _]); close
    | eexists (pre0 ++ [_; _; _; _; _; _]); close
    | eexists (pre0 ++ [_; _; _; _; _; _; _]); close
    | eexists (pre0 ++ [_; _; _; _; _; _; _; _]); close
    | eexists (pre0 ++ [_; _; _; _; _; _; _; _; _]); close
    | eexists (pre0 ++ [_; _; _; _; _; _; _; _; _; _]); close ].

(** C2 (amended). What the guard around [stop()] does with an exception [e]
    that [stop()] raises depends on its class. When [e] derives from
    [Exception], the guarded call logs it and returns normally, and the run
    goes on with the three cancel requests and the bounded wait. When it
    does not ([CancelledError], [KeyboardInterrupt] and [SystemExit] are
    such), the guarded call raises [e] without logging it, [main] raises
    [e], and the run ends with the end of [stop()]: no cancel request, no
    wait, no closing message. *)
Theorem C2_stop_exception_contained platform urandom validate py_int collaborators finish_after
    cfg st e :
  (isinstance e Exception = true →
   (∀ s s1, await_stop s = (Raise e, s1) →
      stop_xiaozhi_server s = (Ret tt, log [ELogError (stop_failed_message e)] s1)) ∧
   (let tr := trace (snd (main platform urandom validate py_int collaborators finish_after
                            (boot cfg st))) in
    In (EStopExit (Raise e)) tr →
    ∃ pre post,
      tr = pre ++
           [EStopExit (Raise e); ELogError (stop_failed_message e);
            ECancel stdin_task; ECancel xiaozhi_task; ECancel ota_task;
            EWaitEnter [stdin_task; xiaozhi_task; ota_task] 3%Q] ++ post)) ∧
  (isinstance e Exception = false →
   (∀ s s1, await_stop s = (Raise e, s1) → stop_xiaozhi_server s = (Raise e, s1)) ∧
   (let r := main platform urandom validate py_int collaborators finish_after
               (boot cfg st) in
    let tr := trace (snd r) in
    In (EStopExit (Raise e)) tr →
    fst r = Raise e ∧
    (∃ pre, tr = pre ++ [EStopEnter; EStopExit (Raise e)]) ∧
    (∀ t, ¬ In (ECancel t) tr) ∧
    (∀ ts timeout, ¬ In (EWaitEnter ts timeout) tr) ∧
    ¬ In (EPrint closed_message) tr)) ∧
  (∀ msg, isinstance (Exc CancelledError msg) Exception = false ∧
          isinstance (Exc KeyboardInterrupt msg) Exception = false ∧
          isinstance (Exc SystemExit msg) Exception = false).
Proof.
  split_and!; [intros He; split|intros He; split|done].
  - intros s s1 Hs. unfold stop_xiaozhi_server, try_except. by rewrite Hs, He.
  - intros tr. subst tr.
    destruct (main _ _ _ _ _ _ _) as [o s] eqn:Hm. simpl.
    apply main_shape in Hm; [|done].
    destruct Hm as (pre0 & Hpre & [[Ht _]|(wr & sr & jr & _ & Ht)]); simpl in Ht; rewrite Ht.
    + intros Hin. rewrite Forall_forall in Hpre. by apply list_elem_of_In, Hpre in Hin.
    + intros Hin. apply In_startup in Hin; [|done|by intros []].
      revert Hin. shape_cases platform wr sr jr; intros Hin;
        decompose [or] Hin; try discriminate; try contradiction; simplify_eq;
        try congruence.
      all: after_prefix pre0.
  - intros s s1 Hs. unfold stop_xiaozhi_server, try_except. by rewrite Hs, He.
  - intros r tr. subst tr r.
    destruct (main _ _ _ _ _ _ _) as [o s] eqn:Hm. simpl.
    apply main_shape in Hm; [|done].
    destruct Hm as (pre0 & Hpre & [[Ht _]|(wr & sr & jr & -> & Ht)]); simpl in Ht; rewrite Ht.
    + intros Hin. rewrite Forall_forall in Hpre. by apply list_elem_of_In, Hpre in Hin.
    + intros Hin. apply In_startup in Hin; [|done|by intros []].
      revert Hin. shape_cases platform wr sr jr; intros Hin;
        decompose [or] Hin; try discriminate; try contradiction; simplify_eq;
        try congruence.
      all: split_and!;
        [ done
        | after_prefix pre0
        | intros t Hin'; apply In_startup in Hin'; [|done|by intros []];
          simpl in Hin'; decompose [or] Hin'; try discriminate; try contradiction
        | intros ts timeout Hin'; apply In_startup in Hin'; [|done|by intros []];
          simpl in Hin'; decompose [or] Hin'; try discriminate; try contradiction
        | intros Hin'; apply In_startup in Hin'; [|done|by intros []];
          simpl in Hin'; decompose [or] Hin'; try discriminate; try contradiction ].
Qed.

(** C2 for every exception fails: a [CancelledError] raised by [stop()]
    is not matched by [except Exception]; it is not logged, it leaves [main],
    and neither the cancel requests nor the bounded wait take place. *)
Lemma C2_cancelled_error_escapes :
  let e := Exc CancelledError EmptyString in
  let r := demo_main "linux" [Signal SIGINT; StopDone (Raise e)] in
  let tr := trace (snd r) in
  In (EStopExit (Raise e)) tr ∧ fst r = Raise e ∧
  ¬ In (ELogError (stop_failed_message e)) tr ∧
  ¬ In (ECancel stdin_task) tr ∧ ¬ In (ECancel xiaozhi_task) tr ∧
  ¬ In (ECancel ota_task) tr ∧
  ¬ In (EWaitEnter [stdin_task; xiaozhi_task; ota_task] 3%Q) tr.
Proof. in_list. Qed.

(** Two instances of C2: a [RuntimeError], which is absorbed, and a
    [SystemExit], which is not. *)
Lemma C2_stop_exception_contained_witness :
  let e := Exc RuntimeError "boom" in
  let e' := Exc SystemExit "1" in
  let r' := demo_main "win32" [Throw (Exc KeyboardInterrupt EmptyString);
                               StopDone (Raise e')] in
  (∃ pre post,
     trace (snd (demo_main "linux" [Signal SIGINT; StopDone (Raise e)])) =
     pre ++
     [EStopExit (Raise e); ELogError (stop_failed_message e);
      ECancel stdin_task; ECancel xiaozhi_task; ECancel ota_task;
      EWaitEnter [stdin_task; xiaozhi_task; ota_task] 3%Q] ++ post) ∧
  (fst r' = Raise e' ∧
   (∃ pre, trace (snd r') = pre ++ [EStopEnter; EStopExit (Raise e')]) ∧
   (∀ t, ¬ In (ECancel t) (trace (snd r'))) ∧
   (∀ ts timeout, ¬ In (EWaitEnter ts timeout) (trace (snd r'))) ∧
   ¬ In (EPrint closed_message) (trace (snd r'))).
Proof.
  split.
  - apply (proj2 (proj1 (C2_stop_exception_contained "linux" 0 demo_validate demo_int
                           demo_collaborators demo_finish demo_config
                           [Signal SIGINT; StopDone (Raise (Exc RuntimeError "boom"))]
                           (Exc RuntimeError "boom")) eq_refl)).
    in_list.
  - apply (proj2 (proj1 (proj2 (C2_stop_exception_contained "win32" 0 demo_validate demo_int
                                  demo_collaborators demo_finish demo_config
                                  [Throw (Exc KeyboardInterrupt EmptyString);
                                   StopDone (Raise (Exc SystemExit "1"))]
                                  (Exc SystemExit "1"))) eq_refl)).
    in_list.
Defined.

(** *** The bounded wait *)

Section bounded.
Variable finish_after : task → option Q.



End bounded.




Lemma event_set_idempotent id s : event_set id (event_set id s) = event_set id s.
Proof.
  unfold event_set at 2 3.
  destruct (events s !! id) as [ev|] eqn:Hev.
  - destruct (ev_value ev) eqn:Hv.
    + unfold event_set. by rewrite Hev, Hv.
    + unfold event_set. simpl.
      rewrite list_lookup_insert_eq by (by eapply lookup_lt_Some). done.
  - unfold event_set. by rewrite Hev.
Qed.

(** C4. Whatever reaches the process and in whatever order, one run of
    [main] enters the shutdown sequence at most once: at most one await of
    [stop()], at most one cancel request per task, at most one bounded wait;
    the termination event resolves its waiter at most once, a further
    [set()] changes nothing, and once [wait_for_exit] has returned the
    delivery of any signal leaves the state as it is. *)
Theorem C4_shutdown_at_most_once platform urandom validate py_int collaborators finish_after
    cfg st :
  let tr := trace (snd (main platform urandom validate py_int collaborators finish_after
                          (boot cfg st))) in
  (count is_stop_enter tr ≤ 1)%nat ∧
  (∀ t, count (is_cancel t) tr ≤ 1)%nat ∧
  (count is_wait_enter tr ≤ 1)%nat ∧
  (count is_wake tr ≤ 1)%nat ∧
  (∀ id s, event_set id (event_set id s) = event_set id s) ∧
  (∀ s s', events s = [] → signal_handlers s = ∅ →
           wait_for_exit platform s = (Ret tt, s') →
           ∀ sig, deliver sig s' = s').
Proof.
  intros tr. subst tr.
  destruct (main _ _ _ _ _ _ _) as [o s] eqn:Hm. simpl.
  apply main_shape in Hm; [|done].
  destruct Hm as (pre0 & Hpre & [[Ht _]|(wr & sr & jr & _ & Ht)]); simpl in Ht; rewrite Ht.
  - split_and!;
      [| intros t | | | apply event_set_idempotent | apply wait_for_exit_returned];
      (rewrite (count_startup _ _ Hpre); [lia|by intros []]).
  - split_and!;
      [| intros t | | | apply event_set_idempotent | apply wait_for_exit_returned];
      (rewrite count_app, (count_startup _ _ Hpre); [|by intros []]);
      shape_cases platform wr sr jr; unfold count; simpl;
      repeat case_bool_decide; simpl; try lia; congruence.
Qed.

(** An instance of C4: after the SIGINT that ended the wait, a SIGTERM
    changes nothing. *)
Lemma C4_shutdown_at_most_once_witness :
  let s := boot demo_config [Signal SIGINT; Signal SIGTERM] in
  deliver SIGTERM (snd (wait_for_exit "linux" s)) = snd (wait_for_exit "linux" s).
Proof.
  intros s.
  apply (proj2 (proj2 (proj2 (proj2 (proj2
           (C4_shutdown_at_most_once "linux" 0 demo_validate demo_int demo_collaborators
              demo_finish demo_config [])))))
           s (snd (wait_for_exit "linux" s))).
  - reflexivity.
  - reflexivity.
  - vm_compute. reflexivity.
Defined.

(** C9 without the proviso fails: the orchestrator is cancelled while it
    waits, the [finally] suite starts, a second cancellation comes out of
    the await of [stop()], and the cancel requests and the bounded wait are
    skipped. *)
Lemma C9_interrupted_stop_cuts_cleanup :
  let st := [Throw (Exc CancelledError EmptyString);
             Throw (Exc CancelledError EmptyString)] in
  let tr := trace (snd (demo_main "linux" st)) in
  fst (wait_for_exit "linux" (boot demo_config st)) = Raise (Exc CancelledError EmptyString) ∧
  In (EPrint cancelled_message) tr ∧ In EStopEnter tr ∧
  ¬ In (ECancel stdin_task) tr ∧ ¬ In (ECancel xiaozhi_task) tr ∧
  ¬ In (ECancel ota_task) tr ∧
  ¬ In (EWaitEnter [stdin_task; xiaozhi_task; ota_task] 3%Q) tr.
Proof. in_list. Qed.

(** C9 (amended). On every way out of the waiting phase, be it a return of
    [wait_for_exit], the cancellation of the orchestrator or any other
    exception, [serve] goes on to the [finally] suite and awaits the
    facade's [stop()]; and whenever that [stop()] returns or raises an
    exception derived from [Exception], the three cancel requests and the
    bounded wait follow. *)
Theorem C9_cleanup_on_every_exit platform finish_after a b c s wr s1 :
  events s = [] →
  wait_for_exit platform s = (wr, s1) →
  wr ≠ Blocked →
  ∃ o s' mid post,
    serve platform finish_after a b c s = (o, s') ∧
    trace s' = trace s1 ++ mid ++ EStopEnter :: post ∧
    (mid = [] ∨ mid = [EPrint cancelled_message]) ∧
    (∀ r, In (EStopExit r) post → contained r = true →
       In (ECancel a) post ∧ In (ECancel b) post ∧ In (ECancel c) post ∧
       In (EWaitEnter [a; b; c] 3%Q) post).
Proof.
  intros Hev Hw Hnb.
  destruct (wait_for_exit_shape _ _ _ _ Hev Hw) as (_ & _ & Hcalm).
  specialize (Hcalm Hnb).
  assert (Hfin : ∀ s2, calm s2 → ∃ o2 s' post,
            shutdown finish_after a b c s2 = (o2, s') ∧
            trace s' = trace s2 ++ EStopEnter :: post ∧
            (∀ r, In (EStopExit r) post → contained r = true →
               In (ECancel a) post ∧ In (ECancel b) post ∧ In (ECancel c) post ∧
               In (EWaitEnter [a; b; c] 3%Q) post)).
  { intros s2 Hc2. destruct (shutdown finish_after a b c s2) as [o2 s'] eqn:Hsh.
    apply shutdown_shape in Hsh; [|done]. destruct Hsh as (_ & sr & jr & -> & Ht).
    exists (fst (shutdown_spec finish_after a b c sr jr)), s'.
    revert Ht. unfold shutdown_spec, contained.
    destruct sr as [[]|e|];
      try match goal with
          | |- context [isinstance ?x Exception] =>
              destruct (isinstance x Exception) eqn:?
          end;
      destruct jr; simpl; intros Ht; eexists; (split; [done|]); (split; [exact Ht|]);
      intros r Hin Hc; simpl in Hin; decompose [or] Hin; try discriminate;
      try contradiction; simplify_eq; simpl in *; try congruence;
      split_and!; auto 12. }
  unfold serve, try_finally, try_except. rewrite Hw.
  destruct wr as [[]|e|]; [| |done].
  - destruct (Hfin s1 Hcalm) as (o2 & s' & post & Hsh & Ht & Hpost). rewrite Hsh.
    exists (match o2 with Ret _ => Ret tt | _ => o2 end), s', [], post.
    split; [by destruct o2|]. split; [done|]. split; [by left|done].
  - destruct (isinstance e CancelledError).
    + unfold print, emit. cbn beta iota.
      destruct (Hfin (log [EPrint cancelled_message] s1)) as (o2 & s' & post & Hsh & Ht & Hpost);
        [by apply calm_log|].
      rewrite Hsh.
      exists (match o2 with Ret _ => Ret tt | _ => o2 end), s', [EPrint cancelled_message], post.
      split; [by destruct o2|]. split; [|split; [by right|done]].
      rewrite Ht. simpl. by rewrite <- app_assoc.
    + destruct (Hfin s1 Hcalm) as (o2 & s' & post & Hsh & Ht & Hpost). rewrite Hsh.
      exists (match o2 with Ret _ => Raise e | _ => o2 end), s', [], post.
      split; [by destruct o2|]. split; [done|]. split; [by left|done].
Qed.

(** An instance of C9: the way out is the cancellation of the
    orchestrator. *)
Lemma C9_cleanup_on_every_exit_witness :
  let st := [Throw (Exc CancelledError EmptyString); StopDone (Ret tt)] in
  ∃ o s' mid post,
    serve "linux" demo_finish stdin_task xiaozhi_task ota_task (boot demo_config st) = (o, s') ∧
    trace s' = trace (snd (wait_for_exit "linux" (boot demo_config st))) ++
               mid ++ EStopEnter :: post ∧
    (mid = [] ∨ mid = [EPrint cancelled_message]) ∧
    (∀ r, In (EStopExit r) post → contained r = true →
       In (ECancel stdin_task) post ∧ In (ECancel xiaozhi_task) post ∧
       In (ECancel ota_task) post ∧
       In (EWaitEnter [stdin_task; xiaozhi_task; ota_task] 3%Q) post).
Proof.
  intros st.
  apply (C9_cleanup_on_every_exit "linux" demo_finish stdin_task xiaozhi_task ota_task
           (boot demo_config st) (Raise (Exc CancelledError EmptyString))).
  - reflexivity.
  - vm_compute. reflexivity.
  - discriminate.
Defined.

(** *** The two forms of the wait *)

Lemma park_quiet pre : ∀ sig post s,
  Forall quiet_stimulus pre →
  sig = SIGINT ∨ sig = SIGTERM →
  events s = [{| ev_value := false; ev_waiters := 1 |}] →
  signal_handlers s = <[SIGTERM := EventSet 0]> (<[SIGINT := EventSet 0]> ∅) →
  ∃ s', park (ready_when_set 0) (λ _, None) Blocked (pre ++ Signal sig :: post) s
        = (Ret true, s') ∧
        stimuli s' = post ∧
        events s' = [{| ev_value := true; ev_waiters := 1 |}] ∧
        signal_handlers s' = <[SIGTERM := EventSet 0]> (<[SIGINT := EventSet 0]> ∅) ∧
        config s' = config s ∧
        trace s' = trace s ++ [EWake 0].
Proof.
  induction pre as [|x pre IH]; intros sig post s Hq Hsig Hev Hh.
  - simpl. unfold deliver. rewrite Hh.
    assert (Hl : <[SIGTERM := EventSet 0]> (<[SIGINT := EventSet 0]> (∅ : gmap Z callback))
                   !! sig = Some (EventSet 0)).
    { destruct Hsig as [->| ->]; [|by rewrite lookup_insert_eq].
      rewrite lookup_insert_ne by done. by rewrite lookup_insert_eq. }
    rewrite Hl. simpl. unfold event_set. rewrite Hev. simpl.
    unfold ready_when_set, ev_is_set. simpl. eexists. split; [done|]. simpl.
    split_and!; done.
  - inversion Hq as [|? ? Hx Hq']; subst. destruct x as [g|e|ro]; simpl in Hx.
    + simpl. unfold deliver. rewrite Hh.
      destruct Hx as [Hg1 Hg2].
      rewrite !lookup_insert_ne, lookup_empty by done.
      unfold ready_when_set at 1, ev_is_set. rewrite Hev. simpl.
      by apply IH.
    + done.
    + simpl. by apply IH.
Qed.

(** C5. Off Windows, on a loop where nothing is registered yet,
    [wait_for_exit] registers the [set] of its event for SIGINT and for
    SIGTERM, and the first of the two signals to arrive ends the wait: it
    returns, having resolved the waiter once; any signal delivered after
    that leaves the state as it is. *)
Theorem C5_first_signal_resolves platform s pre sig post :
  String.eqb platform "win32" = false →
  events s = [] →
  signal_handlers s = ∅ →
  stimuli s = pre ++ Signal sig :: post →
  Forall quiet_stimulus pre →
  sig = SIGINT ∨ sig = SIGTERM →
  ∃ s', wait_for_exit platform s = (Ret tt, s') ∧
        signal_handlers s' = <[SIGTERM := EventSet 0]> (<[SIGINT := EventSet 0]> ∅) ∧
        stimuli s' = post ∧
        trace s' = trace s ++
                   [EAddSignalHandler SIGINT; EAddSignalHandler SIGTERM; EWake 0] ∧
        ev_is_set 0 s' = true ∧
        (∀ sig', deliver sig' s' = s').
Proof.
  intros Hp Hev Hh Hst Hq Hsig.
  unfold wait_for_exit. rewrite Hp. simpl negb. cbv iota.
  rewrite bind_eq. unfold new_event. rewrite Hev. simpl.
  repeat (rewrite bind_eq; simpl).
  unfold event_wait, ev_is_set. simpl.
  unfold try_finally, await. simpl. rewrite Hst, Hh.
  edestruct (park_quiet pre sig post) as (s' & Hpk & Hst' & Hev' & Hh' & Hc' & Ht');
    [exact Hq|exact Hsig| | |rewrite Hpk].
  - reflexivity.
  - reflexivity.
  - unfold set_waiters. rewrite Hev'. simpl. eexists. split; [done|].
    simpl. split_and!; try done.
    + rewrite Ht'. simpl. by rewrite <- !app_assoc.
    + intros sig'. by apply (deliver_after_set _ _ {| ev_value := true; ev_waiters := 0 |}).
Qed.

(** An instance of C5: SIGTERM comes first, SIGINT and a second SIGTERM
    follow. *)
Lemma C5_first_signal_resolves_witness :
  let s := boot demo_config
             [Signal 1; StopDone (Ret tt); Signal SIGTERM; Signal SIGINT; Signal SIGTERM] in
  ∃ s', wait_for_exit "linux" s = (Ret tt, s') ∧
        signal_handlers s' = <[SIGTERM := EventSet 0]> (<[SIGINT := EventSet 0]> ∅) ∧
        stimuli s' = [Signal SIGINT; Signal SIGTERM] ∧
        trace s' = trace s ++
                   [EAddSignalHandler SIGINT; EAddSignalHandler SIGTERM; EWake 0] ∧
        ev_is_set 0 s' = true ∧
        (∀ sig', deliver sig' s' = s').
Proof.
  intros s.
  apply (C5_first_signal_resolves "linux" s [Signal 1; StopDone (Ret tt)] SIGTERM
           [Signal SIGINT; Signal SIGTERM]).
  - reflexivity.
  - reflexivity.
  - reflexivity.
  - reflexivity.
  - repeat constructor; discriminate.
  - right. reflexivity.
Defined.

Lemma deliver_handlers sig s : signal_handlers (deliver sig s) = signal_handlers s.
Proof.
  unfold deliver. destruct (signal_handlers s !! sig) as [[id]|]; [|done].
  simpl. unfold event_set. destruct (events s !! id) as [ev|]; [|done].
  by destruct (ev_value ev).
Qed.

Lemma park_future_blocked st : ∀ s,
  Forall not_throw st →
  fst (park (A := pyval) (λ _, None) (λ _, None) Blocked st s) = Blocked.
Proof.
  induction st as [|x st IH]; intros s Hq; [done|].
  inversion Hq as [|? ? Hx Hq']; subst.
  destruct x as [g|e|ro]; simpl; [by apply IH|done|by apply IH].
Qed.

Lemma park_future_thrown pre : ∀ e post s,
  Forall not_throw pre →
  ∃ s', park (A := pyval) (λ _, None) (λ _, None) Blocked (pre ++ Throw e :: post) s
        = (Raise e, s') ∧
        stimuli s' = post ∧ signal_handlers s' = signal_handlers s.
Proof.
  induction pre as [|x pre IH]; intros e post s Hq.
  - simpl. by eexists.
  - inversion Hq as [|? ? Hx Hq']; subst. destruct x as [g|e'|ro]; simpl; [|done|by apply IH].
    destruct (IH e post (deliver g s) Hq') as (s' & Hp & Hs & Hh).
    exists s'. by rewrite Hp, Hh, deliver_handlers.
Qed.

(** C6 (amended). On Windows [wait_for_exit] registers no signal handler
    and parks on a future that nothing completes: with no exception thrown
    into it, it stays suspended. What unwinds the await decides how it ends:
    a [KeyboardInterrupt] is caught, and [wait_for_exit] returns normally;
    any other exception is raised by [wait_for_exit], and the
    [CancelledError] with which a parked task is cancelled is one of
    these. *)
Theorem C6_win32_interrupt_returns s :
  (Forall not_throw (stimuli s) → fst (wait_for_exit "win32" s) = Blocked) ∧
  (∀ pre e post,
     stimuli s = pre ++ Throw e :: post →
     Forall not_throw pre →
     ∃ s', wait_for_exit "win32" s =
             (if isinstance e KeyboardInterrupt then Ret tt else Raise e, s') ∧
           stimuli s' = post ∧
           signal_handlers s' = signal_handlers s) ∧
  (∀ msg, isinstance (Exc CancelledError msg) KeyboardInterrupt = false).
Proof.
  split_and!; [| |done].
  - intros Hq. unfold wait_for_exit. simpl. rewrite bind_eq. simpl.
    unfold try_except. rewrite bind_eq. unfold await_new_future, await. simpl.
    pose proof (park_future_blocked (stimuli s)
                  (set_events (events s ++ [{| ev_value := false; ev_waiters := 0 |}]) s) Hq)
      as Hb.
    destruct (park _ _ _ _ _) as [r s']. simpl in Hb. by subst.
  - intros pre e post Hst Hq. unfold wait_for_exit. simpl. rewrite bind_eq. simpl.
    unfold try_except. rewrite bind_eq. unfold await_new_future, await. simpl.
    rewrite Hst.
    destruct (park_future_thrown pre e post
                (set_events (events s ++ [{| ev_value := false; ev_waiters := 0 |}]) s) Hq)
      as (s' & Hp & Hs & Hh).
    rewrite Hp. destruct (isinstance e KeyboardInterrupt); by exists s'.
Qed.

(** C6 as it stands fails for the interruption that reaches a parked
    coroutine as a cancellation: [except KeyboardInterrupt] does not match
    [CancelledError], so [wait_for_exit] does not return, it raises; the
    interruption leaves [wait_for_exit], and it is [main] that catches
    it. *)
Lemma C6_cancellation_escapes_wait :
  let e := Exc CancelledError EmptyString in
  let st := [Throw e; StopDone (Ret tt)] in
  fst (wait_for_exit "win32" (boot demo_config st)) = Raise e ∧
  isinstance e KeyboardInterrupt = false ∧
  In (EPrint cancelled_message) (trace (snd (demo_main "win32" st))).
Proof. in_list. Qed.

(** Two instances of C6: a [KeyboardInterrupt], and a cancellation. *)
Lemma C6_win32_interrupt_returns_witness :
  let s := boot demo_config
             [Signal SIGINT; Throw (Exc KeyboardInterrupt EmptyString); StopDone (Ret tt)] in
  let e := Exc CancelledError EmptyString in
  let s2 := boot demo_config [Signal SIGINT; Throw e; StopDone (Ret tt)] in
  (∃ s', wait_for_exit "win32" s = (Ret tt, s') ∧
         stimuli s' = [StopDone (Ret tt)] ∧
         signal_handlers s' = signal_handlers s) ∧
  (∃ s', wait_for_exit "win32" s2 = (Raise e, s') ∧
         stimuli s' = [StopDone (Ret tt)] ∧
         signal_handlers s' = signal_handlers s2).
Proof.
  intros s e s2. split.
  - apply (proj1 (proj2 (C6_win32_interrupt_returns s)) [Signal SIGINT]
             (Exc KeyboardInterrupt EmptyString) [StopDone (Ret tt)]).
    + reflexivity.
    + repeat constructor.
  - apply (proj1 (proj2 (C6_win32_interrupt_returns s2)) [Signal SIGINT] e
             [StopDone (Ret tt)]).
    + reflexivity.
    + repeat constructor.
Defined.

(** *** The stdin monitor *)

(** C7 with cancellation as the only end fails: at the end of input
    [ainput()] raises [EOFError], which ends the monitor although nobody
    cancelled it. *)
Lemma C7_read_error_ends_monitor :
  monitor_stdin [Ret "hello"; Raise (Exc EOFError EmptyString)]
    = Raise (Exc EOFError EmptyString) ∧
  isinstance (Exc EOFError EmptyString) CancelledError = false.
Proof. split; reflexivity. Qed.

Lemma monitor_stdin_drops lines : ∀ rest,
  monitor_stdin (map Ret lines ++ rest) = monitor_stdin rest.
Proof. induction lines as [|l lines IH]; intros rest; [done|]. simpl. apply IH. Qed.

Lemma monitor_stdin_raise reads e :
  monitor_stdin reads = Raise e →
  ∃ lines rest, reads = map Ret lines ++ Raise e :: rest.
Proof.
  induction reads as [|[l|e'|] reads IH]; intros H; simpl in H; try done.
  - destruct (IH H) as (lines & rest & ->). by exists (l :: lines), rest.
  - inversion H; subst. by exists [], reads.
Qed.

(** C7 (amended). [monitor_stdin] never returns a value: each line read is
    dropped and the loop goes round, so with lines alone it stays parked in
    [ainput()] for ever. It ends only when [await ainput()] raises, with that
    exception: the [CancelledError] of a cancel request, or an error of the
    read itself. *)
Theorem C7_monitor_stdin_loop :
  (∀ reads v, monitor_stdin reads ≠ Ret v) ∧
  (∀ lines rest, monitor_stdin (map Ret lines ++ rest) = monitor_stdin rest) ∧
  (∀ lines, monitor_stdin (map Ret lines) = Blocked) ∧
  (∀ reads e, monitor_stdin reads = Raise e ↔
              ∃ lines rest, reads = map Ret lines ++ Raise e :: rest).
Proof.
  split_and!.
  - intros reads v. induction reads as [|[l|e|] reads IH]; simpl; done.
  - intros lines rest. apply monitor_stdin_drops.
  - intros lines. rewrite <- (app_nil_r (map Ret lines)). by rewrite monitor_stdin_drops.
  - intros reads e. split; [apply monitor_stdin_raise|].
    intros (lines & rest & ->). by rewrite monitor_stdin_drops.
Qed.

(** An instance of C7: two lines, then the cancel request. *)
Lemma C7_monitor_stdin_loop_witness :
  monitor_stdin [Ret "a"; Ret "b"; Raise (Exc CancelledError EmptyString); Ret "c"]
    = Raise (Exc CancelledError EmptyString).
Proof.
  apply (proj2 (proj2 (proj2 (proj2 C7_monitor_stdin_loop)) _ _)).
  by exists ["a"; "b"], [Ret "c"].
Defined.

(** *** The configuration *)

Lemma config_kept_lift {A} (o : outcome A) s r s' :
  lift o s = (r, s') → config s' = config s.
Proof. intros H. by inversion H. Qed.

Lemma config_kept_config_get key dflt s r s' :
  config_get key dflt s = (r, s') → config s' = config s.
Proof. intros H. by inversion H. Qed.

Lemma config_kept_config_getitem key s r s' :
  config_getitem key s = (r, s') → config s' = config s.
Proof.
  unfold config_getitem. intros H. destruct (config s !! key); by inversion H.
Qed.

Lemma config_kept_create_task t s r s' :
  create_task t s = (r, s') → config s' = config s.
Proof. intros H. by inversion H. Qed.

Ltac config_kept H :=
  match type of H with
  | create_task _ _ = _ => apply config_kept_create_task in H
  | config_getitem _ _ = _ => apply config_kept_config_getitem in H
  | config_get _ _ _ = _ => apply config_kept_config_get in H
  | lift _ _ = _ => apply config_kept_lift in H
  end.

Lemma main_config platform urandom validate py_int collaborators finish_after s r s' :
  events s = [] →
  main platform urandom validate py_int collaborators finish_after s = (r, s') →
  ∃ r1 s1, derive_auth_key urandom s = (r1, s1) ∧
           mcp_rewritten validate (config s1) (config s').
Proof.
  intros Hev H. unfold main in H.
  apply bind_inv in H. destruct H as [([] & s1 & Hd & H)|(_ & r0 & Hd)];
    [|exists r0, s'; split; [done|by left]].
  exists (Ret tt), s1. split; [done|].
  pose proof (startup_step_derive_auth_key _ _ _ _ Hd) as Hacc.
  assert (Hcfg : config s1 = config s1) by done. clear Hd.
  (* up to the endpoint step the configuration stays the one of [s1] *)
  do 10
    (apply bind_inv in H;
     destruct H as [(?a & ?s & Hm & H)|(_ & r0 & Hm)];
     [ pose proof Hm as Hm'; startup_lemma Hm; config_kept Hm';
       pose proof (startup_step_trans _ _ _ Hacc Hm) as Hacc';
       pose proof (eq_trans Hm' Hcfg) as Hcfg';
       clear Hacc Hm Hcfg Hm'; rename Hacc' into Hacc; rename Hcfg' into Hcfg
     | config_kept Hm; left; congruence ]).
  apply bind_inv in H. destruct H as [([] & sm & Hm & H)|(_ & r0 & Hm)].
  - pose proof Hm as Hm'. apply startup_step_rewrite_mcp_endpoint in Hm.
    pose proof (startup_step_trans _ _ _ Hacc Hm) as Hacc'.
    apply rewrite_mcp_endpoint_run in Hm'. destruct Hm' as (_ & _ & Hmcp).
    rewrite Hcfg in Hmcp. fold (mcp_rewritten validate (config s1) (config sm)) in Hmcp.
    apply bind_inv in H. destruct H as [([] & sb & Hb & H)|(_ & r0 & Hb)].
    + pose proof Hb as Hb'. apply startup_step_lift in Hb. apply config_kept_lift in Hb'.
      destruct (startup_step_trans _ _ _ Hacc' Hb) as (He & _).
      apply serve_shape in H; [|congruence]. destruct H as (Hc & _).
      by rewrite Hc, Hb'.
    + apply config_kept_lift in Hb. by rewrite Hb.
  - apply rewrite_mcp_endpoint_run in Hm. destruct Hm as (_ & _ & Hmcp).
    by rewrite Hcfg in Hmcp.
Qed.

Lemma mcp_rewritten_other validate c c' k :
  mcp_rewritten validate c c' → k ≠ "mcp_endpoint" → c' !! k = c !! k.
Proof.
  intros [->|[(ep & _ & _ & ->)|(v & _ & _ & ->)]] Hk; [done| |];
    by rewrite lookup_insert_ne.
Qed.

#[local] Arguments str_in : simpl never.
#[local] Arguments str_len : simpl never.
#[local] Arguments uuid4_hex : simpl never.









(** C10. [main] changes the configuration in two places at most. The
    [server] section either is as before or gains or replaces its
    [auth_key]; the [mcp_endpoint] entry either is as before, or holds the
    call address of a valid endpoint, or the placeholder text for an invalid
    one; every other entry is what it was. An endpoint that is a string free
    of the marker is rewritten in just this way by the endpoint step. *)
Theorem C10_config_frame platform urandom validate py_int collaborators finish_after cfg st :
  let cfg' := config (snd (main platform urandom validate py_int collaborators finish_after
                             (boot cfg st))) in
  (∀ k, k ≠ "server" → k ≠ "mcp_endpoint" → cfg' !! k = cfg !! k) ∧
  (cfg' !! "server" = cfg !! "server" ∨
   ∃ d v, cfg !! "server" = Some (VDict d) ∧
          cfg' !! "server" = Some (VDict (<["auth_key" := v]> d))) ∧
  (cfg' !! "mcp_endpoint" = cfg !! "mcp_endpoint" ∨
   (∃ ep, cfg !! "mcp_endpoint" = Some (VStr ep) ∧ validate (VStr ep) = Ret true ∧
          cfg' !! "mcp_endpoint" = Some (VStr (str_replace "/mcp/" "/call/" ep))) ∨
   (∃ v, cfg !! "mcp_endpoint" = Some v ∧ validate v = Ret false ∧
         cfg' !! "mcp_endpoint" = Some (VStr placeholder_endpoint))) ∧
  (∀ s ep b,
     config s !! "mcp_endpoint" = Some (VStr ep) →
     str_in marker ep = false →
     validate (VStr ep) = Ret b →
     fst (rewrite_mcp_endpoint validate s) = Ret tt ∧
     config (snd (rewrite_mcp_endpoint validate s)) =
       <["mcp_endpoint" :=
           VStr (if b then str_replace "/mcp/" "/call/" ep else placeholder_endpoint)]>
         (config s)).
Proof.
  intros cfg'. subst cfg'.
  destruct (main _ _ _ _ _ _ _) as [r s'] eqn:Hm. simpl.
  apply main_config in Hm; [|done]. destruct Hm as (r1 & s1 & Hd & Hmcp).
  apply derive_auth_key_run in Hd. simpl in Hd. destruct Hd as (_ & _ & Hd).
  assert (Hc1 : (∀ k, k ≠ "server" → config s1 !! k = cfg !! k) ∧
                (config s1 !! "server" = cfg !! "server" ∨
                 ∃ d v, cfg !! "server" = Some (VDict d) ∧
                        config s1 !! "server" = Some (VDict (<["auth_key" := v]> d)))).
  { destruct Hd as [[_ ->]|(d & v & _ & Hs & ->)].
    - split; [done|by left].
    - split; [intros k Hk; by rewrite lookup_insert_ne|].
      right. exists d, v. by rewrite lookup_insert_eq. }
  destruct Hc1 as (Hother & Hserver).
  split_and!.
  - intros k Hk1 Hk2. rewrite (mcp_rewritten_other _ _ _ _ Hmcp) by done. by apply Hother.
  - rewrite (mcp_rewritten_other _ _ _ _ Hmcp) by done. exact Hserver.
  - destruct Hmcp as [->|[(ep & Hep & Hv & ->)|(v & Hep & Hv & ->)]].
    + left. by apply Hother.
    + right; left. exists ep. rewrite Hother in Hep by done.
      by rewrite lookup_insert_eq.
    + right; right. exists v. rewrite Hother in Hep by done.
      by rewrite lookup_insert_eq.
  - intros s ep b Hep Hmk Hv. unfold rewrite_mcp_endpoint.
    rewrite bind_eq. unfold config_get. cbn beta iota. rewrite Hep. simpl.
    rewrite !bind_eq. simpl. rewrite Hmk. simpl. rewrite bind_eq. unfold lift at 1.
    cbn beta iota. rewrite Hv. by destruct b.
Qed.

(** An instance of C10: the sample endpoint is valid and becomes a call
    address. *)
Lemma C10_config_frame_witness :
  let s := boot demo_config [] in
  fst (rewrite_mcp_endpoint demo_validate s) = Ret tt ∧
  config (snd (rewrite_mcp_endpoint demo_validate s)) =
    <["mcp_endpoint" :=
        VStr (if true then str_replace "/mcp/" "/call/" "ws://host/mcp/?token=abc"
              else placeholder_endpoint)]>
      (config s).
Proof.
  intros s.
  apply (proj2 (proj2 (proj2 (C10_config_frame "linux" 0 demo_validate demo_int demo_collaborators
                                demo_finish demo_config [])))
           s "ws://host/mcp/?token=abc" true).
  - reflexivity.
  - reflexivity.
  - reflexivity.
Defined.

(** * Further properties of the orchestrator *)

(** ** How [main] can end *)

#[local] Arguments wait_exit_event : simpl never.
#[local] Arguments stop_failed_message : simpl never.
#[local] Arguments wait_events : simpl never.

(** The one shape of a run of [serve] that returns. *)
Lemma serve_spec_returned platform finish_after a b c wr sr jr :
  fst (serve_spec platform finish_after a b c wr sr jr) = Ret tt →
  contained sr = true ∧
  snd (serve_spec platform finish_after a b c wr sr jr) =
    (wait_events platform wr ++
     if match wr with Raise e => isinstance e CancelledError | _ => false end
     then [EPrint cancelled_message] else []) ++
    [EStopEnter; EStopExit sr] ++
    match sr with Raise e => [ELogError (stop_failed_message e)] | _ => [] end ++
    [ECancel a; ECancel b; ECancel c; EWaitEnter [a; b; c] 3%Q;
     wait_exit_event finish_after [a; b; c] 3%Q; EPrint closed_message].
Proof.
  unfold serve_spec, shutdown_spec.
  destruct wr as [[]|e|]; [| |discriminate];
    (destruct sr as [[]|e'|]; [| |discriminate]);
    (destruct (contained _) eqn:Hc; [|try discriminate]);
    destruct jr; cbn [fst snd]; intros Ho; try discriminate Ho.
  all: try (destruct (isinstance e CancelledError); discriminate Ho).
  all: split; [reflexivity|]; rewrite <- !app_assoc; reflexivity.
Qed.

(** X1. [main] returns normally only at the end of a complete shutdown:
    the await of [stop()] ended in a return or in an exception that was
    logged, the three tasks were sent their cancel request, the bounded wait
    returned, and the closing message is the last thing done. *)
Theorem X1_return_after_full_shutdown platform urandom validate py_int collaborators
    finish_after cfg st :
  let r := main platform urandom validate py_int collaborators finish_after (boot cfg st) in
  fst r = Ret tt →
  ∃ pre sr,
    contained sr = true ∧
    trace (snd r) =
      pre ++ [EStopEnter; EStopExit sr] ++
      match sr with Raise e => [ELogError (stop_failed_message e)] | _ => [] end ++
      [ECancel stdin_task; ECancel xiaozhi_task; ECancel ota_task;
       EWaitEnter [stdin_task; xiaozhi_task; ota_task] 3%Q;
       wait_exit_event finish_after [stdin_task; xiaozhi_task; ota_task] 3%Q;
       EPrint closed_message].
Proof.
  intros r. subst r.
  destruct (main _ _ _ _ _ _ _) as [o s] eqn:Hm. cbn [fst snd]. intros ->.
  apply main_shape in Hm; [|done].
  destruct Hm as (pre0 & Hpre & [[_ Hn]|(wr & sr & jr & Ho & Ht)]); [by destruct (Hn tt)|].
  symmetry in Ho. apply serve_spec_returned in Ho. destruct Ho as (Hc & Hs).
  eexists (pre0 ++ _), sr. split; [exact Hc|].
  rewrite Ht, Hs. cbn [boot trace app]. rewrite <- (app_assoc pre0). reflexivity.
Qed.

(** An instance of X1: SIGTERM, then a failing [stop()]. *)
Lemma X1_return_after_full_shutdown_witness :
  let r := demo_main "linux" [Signal SIGTERM; StopDone (Raise (Exc OSError "closed"))] in
  ∃ pre sr,
    contained sr = true ∧
    trace (snd r) =
      pre ++ [EStopEnter; EStopExit sr] ++
      match sr with Raise e => [ELogError (stop_failed_message e)] | _ => [] end ++
      [ECancel stdin_task; ECancel xiaozhi_task; ECancel ota_task;
       EWaitEnter [stdin_task; xiaozhi_task; ota_task] 3%Q;
       wait_exit_event demo_finish [stdin_task; xiaozhi_task; ota_task] 3%Q;
       EPrint closed_message].
Proof.
  apply (X1_return_after_full_shutdown "linux" 0 demo_validate demo_int demo_collaborators
           demo_finish demo_config
           [Signal SIGTERM; StopDone (Raise (Exc OSError "closed"))]).
  vm_compute. reflexivity.
Defined.

(** X2. Every way in which [main] can raise. The exception comes from
    startup, before the [try] statement, with nothing of the shutdown done;
    or out of the await of [stop()], not being derived from [Exception]; or
    it was thrown into the bounded wait; or it ended the waiting phase, is
    not a [CancelledError], and is raised again once the cleanup has run to
    its closing message. *)
Theorem X2_ways_to_raise platform urandom validate py_int collaborators finish_after
    cfg st e :
  let r := main platform urandom validate py_int collaborators finish_after (boot cfg st) in
  let tr := trace (snd r) in
  fst r = Raise e →
  Forall startup_event tr ∨
  (isinstance e Exception = false ∧ ∃ pre, tr = pre ++ [EStopEnter; EStopExit (Raise e)]) ∨
  (∃ pre, tr = pre ++ [EWaitEnter [stdin_task; xiaozhi_task; ota_task] 3%Q]) ∨
  (isinstance e CancelledError = false ∧ ∃ pre, tr = pre ++ [EPrint closed_message]).
Proof.
  intros r tr. subst tr r.
  destruct (main _ _ _ _ _ _ _) as [o s] eqn:Hm. simpl. intros ->.
  apply main_shape in Hm; [|done].
  destruct Hm as (pre0 & Hpre & [[Ht _]|(wr & sr & jr & Ho & Ht)]); simpl in Ht; rewrite Ht.
  { left. exact Hpre. }
  right. clear Ht. revert Ho.
  unfold serve_spec, shutdown_spec, wait_events, wait_exit_event, contained.
  destruct (negb (String.eqb platform "win32"));
    destruct wr as [[]|e0|];
    try match goal with
        | |- context [isinstance ?x CancelledError] =>
            destruct (isinstance x CancelledError) eqn:Hc
        end;
    destruct sr as [[]|e'|];
    try match goal with
        | |- context [isinstance ?x Exception] =>
            destruct (isinstance x Exception) eqn:He
        end;
    destruct jr; simpl; intros Ho; try discriminate Ho; simplify_eq.
  all: first
    [ left; split; [done|]; after_prefix pre0
    | right; left; after_prefix pre0
    | right; right; split; [done|]; after_prefix pre0 ].
Qed.

(** An instance of X2: Ctrl-C reaches the wait as a [KeyboardInterrupt] on a
    platform with signal handlers; the cleanup runs and [main] raises it. *)
Lemma X2_ways_to_raise_witness :
  let e := Exc KeyboardInterrupt EmptyString in
  let tr := trace (snd (demo_main "linux" [Throw e; StopDone (Ret tt)])) in
  Forall startup_event tr ∨
  (isinstance e Exception = false ∧ ∃ pre, tr = pre ++ [EStopEnter; EStopExit (Raise e)]) ∨
  (∃ pre, tr = pre ++ [EWaitEnter [stdin_task; xiaozhi_task; ota_task] 3%Q]) ∨
  (isinstance e CancelledError = false ∧ ∃ pre, tr = pre ++ [EPrint closed_message]).
Proof.
  apply (X2_ways_to_raise "linux" 0 demo_validate demo_int demo_collaborators demo_finish
           demo_config
           [Throw (Exc KeyboardInterrupt EmptyString); StopDone (Ret tt)]
           (Exc KeyboardInterrupt EmptyString)).
  reflexivity.
Defined.

(** X3. [main] can stay suspended for ever only while it waits for the
    trigger, while it awaits [stop()], or in a collaborator during startup:
    once the await of [stop()] has ended, [main] ends. *)
Theorem X3_ends_once_stop_ended platform urandom validate py_int collaborators
    finish_after cfg st :
  let r := main platform urandom validate py_int collaborators finish_after (boot cfg st) in
  ∀ sr, In (EStopExit sr) (trace (snd r)) → fst r ≠ Blocked.
Proof.
  intros r. subst r.
  destruct (main _ _ _ _ _ _ _) as [o s] eqn:Hm. simpl. intros sr0 Hin.
  apply main_shape in Hm; [|done].
  destruct Hm as (pre0 & Hpre & [[Ht _]|(wr & sr & jr & -> & Ht)]);
    simpl in Ht; rewrite Ht in Hin.
  - rewrite Forall_forall in Hpre. by apply list_elem_of_In, Hpre in Hin.
  - apply In_startup in Hin; [|done|by intros []].
    revert Hin. shape_cases platform wr sr jr; intros Hin;
      decompose [or] Hin; try discriminate; try contradiction; done.
Qed.

(** An instance of X3. *)
Lemma X3_ends_once_stop_ended_witness :
  fst (demo_main "linux" [Signal SIGINT; StopDone (Ret tt)]) ≠ Blocked.
Proof.
  apply (X3_ends_once_stop_ended "linux" 0 demo_validate demo_int demo_collaborators
           demo_finish demo_config [Signal SIGINT; StopDone (Ret tt)] (Ret tt)).
  in_list.
Defined.

(** X4. On Windows [main] never touches the loop's signal handlers and its
    event is never set: the trace holds no registration and no wake-up. *)
Theorem X4_win32_no_handler urandom validate py_int collaborators finish_after cfg st :
  let tr := trace (snd (main "win32" urandom validate py_int collaborators finish_after
                          (boot cfg st))) in
  (∀ sig, ¬ In (EAddSignalHandler sig) tr) ∧ (∀ id, ¬ In (EWake id) tr).
Proof.
  intros tr. subst tr.
  destruct (main _ _ _ _ _ _ _) as [o s] eqn:Hm. simpl.
  apply main_shape in Hm; [|done].
  destruct Hm as (pre0 & Hpre & [[Ht _]|(wr & sr & jr & _ & Ht)]); simpl in Ht; rewrite Ht.
  - split; intros x Hin; rewrite Forall_forall in Hpre;
      by apply list_elem_of_In, Hpre in Hin.
  - split; intros x Hin; (apply In_startup in Hin; [|done|by intros []]);
      revert Hin; unfold serve_spec, shutdown_spec, wait_events, contained; simpl;
      destruct wr as [[]|?e|];
      try match goal with
          | |- context [isinstance ?x CancelledError] =>
              destruct (isinstance x CancelledError)
          end;
      destruct sr as [[]|?e|];
      try match goal with
          | |- context [isinstance ?x Exception] =>
              destruct (isinstance x Exception)
          end;
      destruct jr; simpl; intros Hin;
      decompose [or] Hin; try discriminate; try contradiction.
Qed.

(** ** Startup *)

Lemma startup_frame_refl s : startup_frame s s.
Proof. split_and!; try done. exists []. by rewrite app_nil_r. Qed.

Lemma startup_frame_trans s1 s2 s3 :
  startup_frame s1 s2 → startup_frame s2 s3 → startup_frame s1 s3.
Proof.
  intros (He1 & Hh1 & Hs1 & evs1 & Ht1 & Hf1) (He2 & Hh2 & Hs2 & evs2 & Ht2 & Hf2).
  split_and!; try congruence.
  exists (evs1 ++ evs2). rewrite Ht2, Ht1, <- app_assoc. split; [done|].
  by apply Forall_app.
Qed.

Lemma startup_frame_set_config c s : startup_frame s (set_config c s).
Proof. split_and!; try done. exists []. simpl. by rewrite app_nil_r. Qed.

Lemma startup_frame_lift {A} (o : outcome A) s r s' :
  lift o s = (r, s') → startup_frame s s'.
Proof. intros H. inversion H; subst. apply startup_frame_refl. Qed.

Lemma startup_frame_config_get key dflt s r s' :
  config_get key dflt s = (r, s') → startup_frame s s'.
Proof. intros H. inversion H; subst. apply startup_frame_refl. Qed.

Lemma startup_frame_config_getitem key s r s' :
  config_getitem key s = (r, s') → startup_frame s s'.
Proof.
  unfold config_getitem. intros H.
  destruct (config s !! key); inversion H; subst; apply startup_frame_refl.
Qed.

Lemma startup_frame_create_task t s r s' :
  create_task t s = (r, s') → startup_frame s s'.
Proof.
  intros H. inversion H; subst. split_and!; try done.
  exists [ECreateTask t]. split; [done|]. by repeat constructor.
Qed.

Lemma startup_frame_config_setitem_in outer inner v s r s' :
  config_setitem_in outer inner v s = (r, s') → startup_frame s s'.
Proof.
  unfold config_setitem_in. intros H.
  destruct (config s !! outer) as [[| | | | |d]|]; inversion H; subst;
    first [apply startup_frame_refl | apply startup_frame_set_config].
Qed.

Lemma startup_frame_derive_auth_key urandom s r s' :
  derive_auth_key urandom s = (r, s') → startup_frame s s'.
Proof.
  unfold derive_auth_key. intros H.
  rewrite bind_eq in H. unfold config_get in H. cbn beta iota in H.
  rewrite bind_eq in H. unfold lift in H at 1. cbn beta iota in H.
  destruct (py_get _ _ _) as [auth_key|e|];
    [| inversion H; subst; apply startup_frame_refl ..].
  rewrite bind_eq in H.
  match type of H with context [config_setitem_in] =>
    match type of H with (match ?m s with _ => _ end) = _ =>
      destruct (m s) as [r1 s1] eqn:H1 end end.
  assert (s1 = s) as ->.
  { destruct (negb (truthy auth_key)); [by inversion H1|].
    rewrite bind_eq in H1. unfold lift in H1. cbn beta iota in H1.
    destruct (py_len auth_key); [|by inversion H1..].
    destruct (a =? 0)%Z; by inversion H1. }
  destruct r1 as [fresh|e|]; [| inversion H; subst; apply startup_frame_refl ..].
  by apply startup_frame_config_setitem_in in H.
Qed.

Lemma startup_frame_rewrite_mcp_endpoint validate s r s' :
  rewrite_mcp_endpoint validate s = (r, s') → startup_frame s s'.
Proof.
  unfold rewrite_mcp_endpoint. intros H.
  rewrite bind_eq in H. unfold config_get in H. cbn beta iota in H.
  destruct (config s !! "mcp_endpoint") as [v|] eqn:Hv; simpl in H;
    [|inversion H; subst; apply startup_frame_refl].
  rewrite bind_eq in H.
  match type of H with (match ?m s with _ => _ end) = _ =>
    destruct (m s) as [r1 s1] eqn:H1 end.
  assert (s1 = s) as ->.
  { destruct v; try by inversion H1.
    all: rewrite bind_eq in H1; unfold lift in H1; cbn beta iota in H1;
      destruct (py_contains marker _); by inversion H1. }
  destruct r1 as [[]|e|]; [| inversion H; subst; apply startup_frame_refl ..].
  rewrite bind_eq in H. unfold lift in H at 1. cbn beta iota in H.
  destruct (validate v) as [[]|e|] eqn:Hval;
    [| | inversion H; subst; apply startup_frame_refl ..].
  - rewrite bind_eq in H. unfold lift in H. cbn beta iota in H.
    destruct v; simpl in H; inversion H; subst;
      first [apply startup_frame_refl | apply startup_frame_set_config].
  - rewrite bind_eq in H. simpl in H. inversion H; subst.
    split_and!; try done. simpl. eexists. split; [done|]. by repeat constructor.
Qed.

Ltac frame_lemma H :=
  try match type of H with
      | create_task ?t _ = (Ret ?a, _) =>
          assert (a = t) as -> by (by inversion H)
      end;
  match type of H with
  | create_task _ _ = _ => apply startup_frame_create_task in H
  | config_getitem _ _ = _ => apply startup_frame_config_getitem in H
  | config_get _ _ _ = _ => apply startup_frame_config_get in H
  | derive_auth_key _ _ = _ => apply startup_frame_derive_auth_key in H
  | rewrite_mcp_endpoint _ _ = _ => apply startup_frame_rewrite_mcp_endpoint in H
  | lift _ _ = _ => apply startup_frame_lift in H
  end.

(** Either startup fails, or [serve] is run, after every collaborator
    returned, from a state that differs from the first one by the
    configuration and startup events only. *)
Lemma main_inv platform urandom validate py_int collaborators finish_after s r s' :
  main platform urandom validate py_int collaborators finish_after s = (r, s') →
  (startup_frame s s' ∧ ∀ v, r ≠ Ret v) ∨
  (∃ s0, (∀ c, collaborators c = Ret tt) ∧ startup_frame s s0 ∧
         serve platform finish_after stdin_task xiaozhi_task ota_task s0 = (r, s')).
Proof.
  intros H. unfold main in H.
  pose proof (startup_frame_refl s) as Hacc.
  repeat
    (apply bind_inv in H;
     destruct H as [(?a & ?s & Hm & H)|(Hnr & r0 & Hm)];
     [ try match type of Hm with
           | lift (collaborators ?c) _ = (Ret ?u, _) =>
               assert (collaborators c = Ret tt) by (destruct u; by inversion Hm)
           end;
       frame_lemma Hm; pose proof (startup_frame_trans _ _ _ Hacc Hm) as Hacc';
       clear Hacc Hm; rename Hacc' into Hacc
     | frame_lemma Hm; left; split; [by eapply startup_frame_trans|done] ]).
  right. eexists. split; [|split; [exact Hacc|exact H]].
  intros []; assumption.
Qed.

(** ** From the stimuli to the run *)

Lemma quiet_not_throw st : Forall quiet_stimulus st → Forall not_throw st.
Proof.
  intros H. eapply Forall_impl; [exact H|]. intros [sig|e|r]; simpl; tauto.
Qed.

Lemma leaves_waiting_not_throw platform st :
  Forall (leaves_waiting platform) st → Forall not_throw st.
Proof.
  unfold leaves_waiting. destruct (String.eqb platform "win32"); [done|].
  apply quiet_not_throw.
Qed.

Lemma deliver_quiet sig s :
  signal_handlers s = <[SIGTERM := EventSet 0]> (<[SIGINT := EventSet 0]> ∅) →
  sig ≠ SIGINT → sig ≠ SIGTERM → deliver sig s = s.
Proof.
  intros Hh H1 H2. unfold deliver. rewrite Hh.
  by rewrite !lookup_insert_ne, lookup_empty by done.
Qed.

Lemma park_quiet_thrown pre : ∀ e post s,
  Forall quiet_stimulus pre →
  events s = [{| ev_value := false; ev_waiters := 1 |}] →
  signal_handlers s = <[SIGTERM := EventSet 0]> (<[SIGINT := EventSet 0]> ∅) →
  ∃ s', park (ready_when_set 0) (λ _, None) Blocked (pre ++ Throw e :: post) s
        = (Raise e, s') ∧
        stimuli s' = post.
Proof.
  induction pre as [|x pre IH]; intros e post s Hq Hev Hh.
  - simpl. by eexists.
  - inversion Hq as [|? ? Hx Hq']; subst. destruct x as [g|e'|ro]; simpl in Hx.
    + simpl. destruct Hx as [Hg1 Hg2]. rewrite deliver_quiet by done.
      unfold ready_when_set at 1, ev_is_set. rewrite Hev. simpl. by apply IH.
    + done.
    + simpl. by apply IH.
Qed.

Lemma park_quiet_blocked st : ∀ s,
  Forall quiet_stimulus st →
  events s = [{| ev_value := false; ev_waiters := 1 |}] →
  signal_handlers s = <[SIGTERM := EventSet 0]> (<[SIGINT := EventSet 0]> ∅) →
  ∃ s', park (ready_when_set 0) (λ _, None) Blocked st s = (Blocked, s') ∧
        trace s' = trace s.
Proof.
  induction st as [|x st IH]; intros s Hq Hev Hh.
  - simpl. by eexists.
  - inversion Hq as [|? ? Hx Hq']; subst. destruct x as [g|e'|ro]; simpl in Hx.
    + simpl. destruct Hx as [Hg1 Hg2]. rewrite deliver_quiet by done.
      unfold ready_when_set at 1, ev_is_set. rewrite Hev. simpl. by apply IH.
    + done.
    + simpl. by apply IH.
Qed.

(** How the wait ends is fixed by the first stimulus that does not leave it
    suspended. *)
Lemma wait_for_exit_outcome platform s pre x post :
  events s = [] →
  signal_handlers s = ∅ →
  stimuli s = pre ++ x :: post →
  Forall (leaves_waiting platform) pre →
  ends_wait platform x →
  ∃ s', wait_for_exit platform s = (wait_result platform x, s') ∧ stimuli s' = post.
Proof.
  intros Hev Hh Hst Hpre Hx. unfold leaves_waiting in Hpre.
  unfold wait_for_exit, wait_result.
  destruct (String.eqb platform "win32") eqn:Hp; simpl negb; cbv iota.
  - rewrite bind_eq. simpl.
    unfold try_except. rewrite bind_eq. unfold await_new_future, await. simpl.
    rewrite Hst. destruct x as [sig|e|r]; [destruct Hx as [Hx _]; congruence| |done].
    destruct (park_future_thrown pre e post
                (set_events (events s ++ [{| ev_value := false; ev_waiters := 0 |}]) s) Hpre)
      as (s' & Hpk & Hs & _).
    rewrite Hpk. simpl. destruct (isinstance e KeyboardInterrupt); by exists s'.
  - rewrite bind_eq. unfold new_event. rewrite Hev. simpl.
    repeat (rewrite bind_eq; simpl).
    unfold event_wait, ev_is_set. simpl.
    unfold try_finally, await. simpl. rewrite Hst, Hh.
    destruct x as [sig|e|r]; [| |done].
    + destruct Hx as [_ Hsig].
      edestruct (park_quiet pre sig post) as (s' & Hpk & Hst' & Hev' & _);
        [exact Hpre|exact Hsig| | |rewrite Hpk]; [reflexivity..|].
      unfold set_waiters. rewrite Hev'. simpl. by eexists.
    + edestruct (park_quiet_thrown pre e post) as (s' & Hpk & Hst');
        [exact Hpre| | |rewrite Hpk]; [reflexivity..|].
      unfold set_waiters. destruct (events s' !! 0); simpl; by eexists.
Qed.

(** With nothing that ends the wait, [wait_for_exit] stays suspended. *)
Lemma wait_for_exit_waiting platform s :
  events s = [] →
  signal_handlers s = ∅ →
  Forall (leaves_waiting platform) (stimuli s) →
  fst (wait_for_exit platform s) = Blocked.
Proof.
  intros Hev Hh Hst. unfold leaves_waiting in Hst. unfold wait_for_exit.
  destruct (String.eqb platform "win32") eqn:Hp; simpl negb; cbv iota.
  - rewrite bind_eq. simpl.
    unfold try_except. rewrite bind_eq. unfold await_new_future, await. simpl.
    pose proof (park_future_blocked (stimuli s)
                  (set_events (events s ++ [{| ev_value := false; ev_waiters := 0 |}]) s) Hst)
      as Hb.
    destruct (park _ _ _ _ _) as [r s']. simpl in Hb. by subst.
  - rewrite bind_eq. unfold new_event. rewrite Hev. simpl.
    repeat (rewrite bind_eq; simpl).
    unfold event_wait, ev_is_set. simpl.
    unfold try_finally, await. simpl. rewrite Hh.
    edestruct (park_quiet_blocked (stimuli s)) as (s' & Hpk & _);
      [exact Hst| | |rewrite Hpk]; [reflexivity..|].
    done.
Qed.

Lemma park_stop_done mid : ∀ sr post s,
  Forall only_signal mid →
  ∃ s', park (A := unit) (λ _, None) (λ r, Some r) Blocked (mid ++ StopDone sr :: post) s
        = (sr, s') ∧
        stimuli s' = post.
Proof.
  induction mid as [|x mid IH]; intros sr post s Hq.
  - simpl. by eexists.
  - inversion Hq as [|? ? Hx Hq']; subst. destruct x as [g|e'|ro]; try done.
    simpl. by apply IH.
Qed.

Lemma park_stop_blocked st : ∀ s,
  Forall only_signal st →
  fst (park (A := unit) (λ _, None) (λ r, Some r) Blocked st s) = Blocked.
Proof.
  induction st as [|x st IH]; intros s Hq; [done|].
  inversion Hq as [|? ? Hx Hq']; subst. destruct x as [g|e'|ro]; try done.
  simpl. by apply IH.
Qed.

Lemma await_stop_outcome s mid sr post :
  stimuli s = mid ++ StopDone sr :: post →
  Forall only_signal mid →
  ∃ s', await_stop s = (sr, s') ∧ stimuli s' = post.
Proof.
  intros Hst Hq. unfold await_stop. rewrite bind_eq. simpl. unfold await. simpl.
  rewrite Hst.
  destruct (park_stop_done mid sr post (log [EStopEnter] s) Hq) as (s' & Hpk & Hs).
  rewrite Hpk. destruct sr; by eexists.
Qed.

Lemma await_stop_blocked s :
  Forall only_signal (stimuli s) →
  fst (await_stop s) = Blocked.
Proof.
  intros Hq. unfold await_stop. rewrite bind_eq. simpl. unfold await. simpl.
  pose proof (park_stop_blocked (stimuli s) (log [EStopEnter] s) Hq) as Hb.
  destruct (park _ _ _ _ _) as [r s']. simpl in Hb. by subst.
Qed.

Lemma park_timer st : ∀ s,
  Forall not_throw st →
  fst (park (A := unit) (λ _, None) (λ _, None) (Ret tt) st s) = Ret tt.
Proof.
  induction st as [|x st IH]; intros s Hq; [done|].
  inversion Hq as [|? ? Hx Hq']; subst. destruct x as [g|e'|ro]; try done;
    simpl; by apply IH.
Qed.

Lemma asyncio_wait_returns finish_after ts timeout s :
  Forall not_throw (stimuli s) →
  ∃ dp, fst (asyncio_wait finish_after ts timeout s) = Ret dp.
Proof.
  intros Hq. unfold asyncio_wait. rewrite bind_eq. simpl. rewrite bind_eq.
  unfold await. simpl.
  pose proof (park_timer (stimuli s) (log [EWaitEnter ts timeout] s) Hq) as Hb.
  destruct (park _ _ _ _ _) as [r s']. simpl in Hb. subst.
  rewrite bind_eq. simpl. by eexists.
Qed.

Lemma shutdown_run finish_after a b c s mid sr post :
  calm s →
  stimuli s = mid ++ StopDone sr :: post →
  Forall only_signal mid →
  contained sr = true →
  Forall not_throw post →
  ∃ s', shutdown finish_after a b c s = (Ret tt, s') ∧
        trace s' = trace s ++ snd (shutdown_spec finish_after a b c sr None).
Proof.
  intros Hc Hst Hmid Hsr Hpost.
  destruct (await_stop_outcome s mid sr post Hst Hmid) as (s1 & Hs1 & Hst1).
  destruct (await_stop_calm _ _ _ Hc Hs1) as (Hc1 & _ & Ht1).
  assert (Hrest : ∀ s2 : state, calm s2 → stimuli s2 = post →
    ∃ s', (cancel a ;; cancel b ;; (if task_truthy c then cancel c else mret tt) ;;
           asyncio_wait finish_after
             (if task_truthy c then [a; b] ++ [c] else [a; b]) 3%Q ;;
           print closed_message) s2 = (Ret tt, s') ∧
          trace s' = trace s2 ++
            [ECancel a; ECancel b; ECancel c; EWaitEnter [a; b; c] 3%Q;
             wait_exit_event finish_after [a; b; c] 3%Q; EPrint closed_message]).
  { clear -Hpost. intros s2 Hc2 Hst2. repeat (rewrite bind_eq; simpl).
    match goal with |- context [asyncio_wait ?f ?ts ?t ?st] =>
      destruct (asyncio_wait_returns f ts t st) as [dp Hdp]; [simpl; by rewrite Hst2|];
      destruct (asyncio_wait f ts t st) as [rj sj] eqn:Hj end.
    simpl in Hdp. subst rj.
    apply asyncio_wait_calm in Hj; [|done].
    destruct Hj as (_ & [(e & He & _)|(dp' & _ & Htj)]); [done|].
    simpl. eexists. split; [reflexivity|]. simpl. rewrite Htj. simpl.
    by rewrite <- !app_assoc. }
  unfold shutdown. rewrite bind_eq. unfold stop_xiaozhi_server, try_except. rewrite Hs1.
  destruct sr as [[]|e|]; simpl in Hsr; [| |done].
  - destruct (Hrest s1 Hc1 Hst1) as (s' & Hr & Ht). exists s'. split; [exact Hr|].
    rewrite Ht, Ht1. unfold shutdown_spec. simpl. by rewrite <- !app_assoc.
  - cbn beta iota. rewrite Hsr. unfold logger_error, emit. cbn beta iota.
    destruct (Hrest (log [ELogError (stop_failed_message e)] s1)) as (s' & Hr & Ht);
      [by apply calm_log|done|].
    exists s'. split; [exact Hr|].
    rewrite Ht. unfold shutdown_spec. simpl. rewrite Hsr, Ht1. simpl.
    by rewrite <- !app_assoc.
Qed.

Lemma shutdown_stuck finish_after a b c s :
  calm s →
  Forall only_signal (stimuli s) →
  ∃ s', shutdown finish_after a b c s = (Blocked, s') ∧
        trace s' = trace s ++ [EStopEnter].
Proof.
  intros Hc Hq. pose proof (await_stop_blocked s Hq) as Hb.
  destruct (await_stop s) as [r s1] eqn:Hs1. simpl in Hb. subst r.
  destruct (await_stop_calm _ _ _ Hc Hs1) as (_ & _ & Ht1).
  unfold shutdown. rewrite bind_eq. unfold stop_xiaozhi_server, try_except. rewrite Hs1.
  by exists s1.
Qed.

Lemma wait_result_ends platform x : ends_wait platform x → wait_result platform x ≠ Blocked.
Proof.
  unfold wait_result. destruct x as [sig|e|r]; [done| |done].
  by destruct (String.eqb platform "win32" && isinstance e KeyboardInterrupt).
Qed.

(** A run of [serve] that goes through: a stimulus ends the wait, [stop()]
    ends in a way the guard absorbs, nothing is thrown after that. *)
Lemma serve_run platform finish_after a b c s pre x mid sr post :
  events s = [] →
  signal_handlers s = ∅ →
  stimuli s = pre ++ x :: mid ++ StopDone sr :: post →
  Forall (leaves_waiting platform) pre →
  ends_wait platform x →
  Forall only_signal mid →
  contained sr = true →
  Forall not_throw post →
  ∃ s', serve platform finish_after a b c s = (exit_outcome platform x, s') ∧
        trace s' = trace s ++
          snd (serve_spec platform finish_after a b c (wait_result platform x) sr None).
Proof.
  intros Hev Hh Hst Hpre Hx Hmid Hsr Hpost.
  destruct (wait_for_exit_outcome platform s pre x _ Hev Hh Hst Hpre Hx) as (s1 & Hw & Hst1).
  destruct (wait_for_exit_shape _ _ _ _ Hev Hw) as (_ & Ht1 & Hcalm).
  specialize (Hcalm (wait_result_ends _ _ Hx)).
  unfold serve, try_finally, try_except. rewrite Hw. unfold exit_outcome, serve_spec.
  destruct (shutdown_spec finish_after a b c sr None) as [o evs] eqn:Hspec.
  assert (Ho : o = Ret tt).
  { revert Hspec. unfold shutdown_spec. rewrite Hsr.
    destruct sr as [[]|e|]; [| |done]; intros Hspec; by inversion Hspec. }
  subst o.
  destruct (wait_result platform x) as [[]|e|] eqn:Hwr;
    [| |by destruct (wait_result_ends _ _ Hx)].
  - destruct (shutdown_run finish_after a b c s1 mid sr post) as (s' & Hsh & Ht); try done.
    rewrite Hsh. exists s'. split; [done|].
    rewrite Ht, Ht1, Hspec. simpl. by rewrite <- !app_assoc.
  - destruct (isinstance e CancelledError) eqn:Hce.
    + unfold print, emit. cbn beta iota.
      destruct (shutdown_run finish_after a b c (log [EPrint cancelled_message] s1)
                  mid sr post) as (s' & Hsh & Ht); try done.
      rewrite Hsh. exists s'. split; [done|].
      rewrite Ht, Hspec. simpl. rewrite Ht1. by rewrite <- !app_assoc.
    + destruct (shutdown_run finish_after a b c s1 mid sr post) as (s' & Hsh & Ht); try done.
      rewrite Hsh. exists s'. split; [done|].
      rewrite Ht, Ht1, Hspec. simpl. by rewrite <- !app_assoc.
Qed.

(** A run of [serve] in which [stop()] never ends. *)
Lemma serve_stuck platform finish_after a b c s pre x rest :
  events s = [] →
  signal_handlers s = ∅ →
  stimuli s = pre ++ x :: rest →
  Forall (leaves_waiting platform) pre →
  ends_wait platform x →
  Forall only_signal rest →
  ∃ s', serve platform finish_after a b c s = (Blocked, s') ∧
        trace s' = trace s ++
          snd (serve_spec platform finish_after a b c (wait_result platform x) Blocked None).
Proof.
  intros Hev Hh Hst Hpre Hx Hrest.
  destruct (wait_for_exit_outcome platform s pre x _ Hev Hh Hst Hpre Hx) as (s1 & Hw & Hst1).
  destruct (wait_for_exit_shape _ _ _ _ Hev Hw) as (_ & Ht1 & Hcalm).
  specialize (Hcalm (wait_result_ends _ _ Hx)).
  unfold serve, try_finally, try_except. rewrite Hw. unfold serve_spec, shutdown_spec.
  destruct (wait_result platform x) as [[]|e|] eqn:Hwr;
    [| |by destruct (wait_result_ends _ _ Hx)].
  - destruct (shutdown_stuck finish_after a b c s1) as (s' & Hsh & Ht);
      [done|by rewrite Hst1|].
    rewrite Hsh. exists s'. split; [done|].
    rewrite Ht, Ht1. simpl. by rewrite <- !app_assoc.
  - destruct (isinstance e CancelledError) eqn:Hce.
    + unfold print, emit. cbn beta iota.
      destruct (shutdown_stuck finish_after a b c (log [EPrint cancelled_message] s1))
        as (s' & Hsh & Ht); [done|by simpl; rewrite Hst1|].
      rewrite Hsh. exists s'. split; [done|].
      rewrite Ht. simpl. rewrite Ht1. by rewrite <- !app_assoc.
    + destruct (shutdown_stuck finish_after a b c s1) as (s' & Hsh & Ht);
        [done|by rewrite Hst1|].
      rewrite Hsh. exists s'. split; [done|].
      rewrite Ht, Ht1. simpl. by rewrite <- !app_assoc.
Qed.

(** A run of [serve] in which nothing ends the wait. *)
Lemma serve_waiting platform finish_after a b c s :
  events s = [] →
  signal_handlers s = ∅ →
  Forall (leaves_waiting platform) (stimuli s) →
  ∃ s', serve platform finish_after a b c s = (Blocked, s') ∧
        trace s' = trace s ++ wait_events platform Blocked.
Proof.
  intros Hev Hh Hst.
  pose proof (wait_for_exit_waiting platform s Hev Hh Hst) as Hb.
  destruct (wait_for_exit platform s) as [r s1] eqn:Hw. simpl in Hb. subst r.
  destruct (wait_for_exit_shape _ _ _ _ Hev Hw) as (_ & Ht1 & _).
  unfold serve, try_finally, try_except. rewrite Hw. by exists s1.
Qed.

Lemma serve_spec_complete platform finish_after a b c wr sr :
  wr ≠ Blocked →
  contained sr = true →
  snd (serve_spec platform finish_after a b c wr sr None) =
    (wait_events platform wr ++
     if match wr with Raise e => isinstance e CancelledError | _ => false end
     then [EPrint cancelled_message] else []) ++
    [EStopEnter; EStopExit sr] ++
    match sr with Raise e => [ELogError (stop_failed_message e)] | _ => [] end ++
    [ECancel a; ECancel b; ECancel c; EWaitEnter [a; b; c] 3%Q;
     wait_exit_event finish_after [a; b; c] 3%Q; EPrint closed_message].
Proof.
  intros Hwr Hsr. unfold serve_spec, shutdown_spec. rewrite Hsr.
  destruct wr as [[]|e|]; [| |done]; (destruct sr as [[]|e'|]; [| |done]);
    cbn [fst snd]; rewrite <- !app_assoc; reflexivity.
Qed.

Lemma serve_spec_stuck platform finish_after a b c wr :
  wr ≠ Blocked →
  snd (serve_spec platform finish_after a b c wr Blocked None) =
    (wait_events platform wr ++
     if match wr with Raise e => isinstance e CancelledError | _ => false end
     then [EPrint cancelled_message] else []) ++ [EStopEnter].
Proof.
  intros Hwr. unfold serve_spec, shutdown_spec.
  destruct wr as [[]|e|]; [| |done]; cbn [fst snd]; rewrite <- !app_assoc; reflexivity.
Qed.

Lemma wait_events_In platform wr ev :
  In ev (wait_events platform wr) →
  ev = EAddSignalHandler SIGINT ∨ ev = EAddSignalHandler SIGTERM ∨ ev = EWake 0.
Proof.
  unfold wait_events. destruct (negb (String.eqb platform "win32")); [|done].
  destruct wr; simpl; intuition.
Qed.

Lemma startup_frame_boot cfg st s0 :
  startup_frame (boot cfg st) s0 →
  events s0 = [] ∧ signal_handlers s0 = ∅ ∧ stimuli s0 = st ∧
  Forall startup_event (trace s0).
Proof.
  intros (He & Hh & Hs & evs & Ht & Hf). simpl in *. by rewrite Ht.
Qed.

(** X5. A shutdown that goes through. Let the stimuli be: some that leave
    the wait suspended; one that ends it (SIGINT or SIGTERM off Windows,
    anything thrown into [main]); signals only while [stop()] is awaited;
    the end of [stop()], with a return or an exception derived from
    [Exception]; then nothing thrown. Unless startup failed, [main] then
    ends after the complete cleanup, closing message last, and it returns
    normally when the wait was ended by a signal, by a cancellation, or on
    Windows by Ctrl-C; any other exception that ended the wait is raised
    again. *)
Theorem X5_shutdown_goes_through platform urandom validate py_int collaborators
    finish_after cfg pre x mid sr post :
  Forall (leaves_waiting platform) pre →
  ends_wait platform x →
  Forall only_signal mid →
  contained sr = true →
  Forall not_throw post →
  let r := main platform urandom validate py_int collaborators finish_after
             (boot cfg (pre ++ x :: mid ++ StopDone sr :: post)) in
  let tr := trace (snd r) in
  ((∀ v, fst r ≠ Ret v) ∧ Forall startup_event tr) ∨
  (fst r = exit_outcome platform x ∧
   ∃ p, tr = p ++ [EStopEnter; EStopExit sr] ++
             match sr with Raise e => [ELogError (stop_failed_message e)] | _ => [] end ++
             [ECancel stdin_task; ECancel xiaozhi_task; ECancel ota_task;
              EWaitEnter [stdin_task; xiaozhi_task; ota_task] 3%Q;
              wait_exit_event finish_after [stdin_task; xiaozhi_task; ota_task] 3%Q;
              EPrint closed_message]).
Proof.
  intros Hpre Hx Hmid Hsr Hpost r tr. subst tr r.
  destruct (main _ _ _ _ _ _ _) as [o s'] eqn:Hm. cbn [fst snd].
  apply main_inv in Hm. destruct Hm as [[Hf Hn]|(s0 & _ & Hf & Hs)].
  - left. split; [done|]. by destruct (startup_frame_boot _ _ _ Hf) as (_ & _ & _ & ?).
  - right. destruct (startup_frame_boot _ _ _ Hf) as (He0 & Hh0 & Hst0 & Ht0).
    destruct (serve_run platform finish_after stdin_task xiaozhi_task ota_task s0
                pre x mid sr post) as (s1 & Hs1 & Ht1); try done.
    rewrite Hs in Hs1. inversion Hs1; subst. split; [done|].
    rewrite Ht1, serve_spec_complete by (done || by apply wait_result_ends).
    eexists (trace s0 ++ _). rewrite <- (app_assoc (trace s0)). reflexivity.
Qed.

(** An instance of X5: SIGTERM, a second and a third signal while [stop()]
    runs, then the failure of [stop()]. *)
Lemma X5_shutdown_goes_through_witness :
  let sr := Raise (Exc OSError "closed") in
  let r := demo_main "linux"
             ([Signal 1] ++ Signal SIGTERM :: [Signal SIGINT; Signal SIGTERM] ++
              StopDone sr :: [Signal SIGINT]) in
  let tr := trace (snd r) in
  ((∀ v, fst r ≠ Ret v) ∧ Forall startup_event tr) ∨
  (fst r = exit_outcome "linux" (Signal SIGTERM) ∧
   ∃ p, tr = p ++ [EStopEnter; EStopExit sr] ++
             match sr with Raise e => [ELogError (stop_failed_message e)] | _ => [] end ++
             [ECancel stdin_task; ECancel xiaozhi_task; ECancel ota_task;
              EWaitEnter [stdin_task; xiaozhi_task; ota_task] 3%Q;
              wait_exit_event demo_finish [stdin_task; xiaozhi_task; ota_task] 3%Q;
              EPrint closed_message]).
Proof.
  apply (X5_shutdown_goes_through "linux" 0 demo_validate demo_int demo_collaborators
           demo_finish demo_config
           [Signal 1] (Signal SIGTERM) [Signal SIGINT; Signal SIGTERM]
           (Raise (Exc OSError "closed")) [Signal SIGINT]).
  - repeat constructor; discriminate.
  - split; [reflexivity|by right].
  - repeat constructor.
  - reflexivity.
  - repeat constructor.
Defined.

(** X6. Nothing but the end of [stop()] gets [main] past the await of
    [stop()]: once the wait has ended, if only signals follow, SIGINT and
    SIGTERM among them, [main] stays suspended in that await for ever, and
    no task is sent a cancel request. *)
Theorem X6_signals_do_not_end_stop platform urandom validate py_int collaborators
    finish_after cfg pre x rest :
  Forall (leaves_waiting platform) pre →
  ends_wait platform x →
  Forall only_signal rest →
  let r := main platform urandom validate py_int collaborators finish_after
             (boot cfg (pre ++ x :: rest)) in
  let tr := trace (snd r) in
  (∀ v, fst r ≠ Ret v) ∧
  (∀ t, ¬ In (ECancel t) tr) ∧
  (Forall startup_event tr ∨ (fst r = Blocked ∧ ∃ p, tr = p ++ [EStopEnter])).
Proof.
  intros Hpre Hx Hrest r tr. subst tr r.
  destruct (main _ _ _ _ _ _ _) as [o s'] eqn:Hm. cbn [fst snd].
  apply main_inv in Hm. destruct Hm as [[Hf Hn]|(s0 & _ & Hf & Hs)].
  - destruct (startup_frame_boot _ _ _ Hf) as (_ & _ & _ & Ht).
    split_and!; [done| |by left].
    intros t Hin. rewrite Forall_forall in Ht. by apply list_elem_of_In, Ht in Hin.
  - destruct (startup_frame_boot _ _ _ Hf) as (He0 & Hh0 & Hst0 & Ht0).
    destruct (serve_stuck platform finish_after stdin_task xiaozhi_task ota_task s0
                pre x rest) as (s1 & Hs1 & Ht1); try done.
    rewrite Hs in Hs1. inversion Hs1; subst.
    rewrite Ht1, serve_spec_stuck by (by apply wait_result_ends).
    split_and!; [done| |].
    + intros t Hin. apply In_startup in Hin; [|done|by intros []].
      rewrite !in_app_iff in Hin. destruct Hin as [[Hin|Hin]|Hin].
      * apply wait_events_In in Hin. by destruct Hin as [?|[?|?]].
      * destruct (match wait_result platform x with Raise e => _ | _ => _ end);
          simpl in Hin; by destruct Hin.
      * simpl in Hin. by destruct Hin.
    + right. split; [done|]. eexists (trace s0 ++ _).
      rewrite <- (app_assoc (trace s0)). reflexivity.
Qed.

(** An instance of X6: Ctrl-C three times, [stop()] still running. *)
Lemma X6_signals_do_not_end_stop_witness :
  let r := demo_main "linux" ([] ++ Signal SIGINT :: [Signal SIGINT; Signal SIGINT]) in
  let tr := trace (snd r) in
  (∀ v, fst r ≠ Ret v) ∧
  (∀ t, ¬ In (ECancel t) tr) ∧
  (Forall startup_event tr ∨ (fst r = Blocked ∧ ∃ p, tr = p ++ [EStopEnter])).
Proof.
  apply (X6_signals_do_not_end_stop "linux" 0 demo_validate demo_int demo_collaborators
           demo_finish demo_config [] (Signal SIGINT) [Signal SIGINT; Signal SIGINT]).
  - constructor.
  - split; [reflexivity|by left].
  - repeat constructor.
Defined.

(** X7. No shutdown without a cause: as long as nothing ends the wait (off
    Windows: no SIGINT, no SIGTERM, nothing thrown; on Windows: nothing
    thrown), [main] does not return, does not call [stop()], cancels no
    task and prints nothing. *)
Theorem X7_no_shutdown_without_cause platform urandom validate py_int collaborators
    finish_after cfg st :
  Forall (leaves_waiting platform) st →
  let r := main platform urandom validate py_int collaborators finish_after (boot cfg st) in
  let tr := trace (snd r) in
  (∀ v, fst r ≠ Ret v) ∧
  ¬ In EStopEnter tr ∧ (∀ t, ¬ In (ECancel t) tr) ∧ (∀ m, ¬ In (EPrint m) tr).
Proof.
  intros Hst r tr. subst tr r.
  destruct (main _ _ _ _ _ _ _) as [o s'] eqn:Hm. cbn [fst snd].
  apply main_inv in Hm. destruct Hm as [[Hf Hn]|(s0 & _ & Hf & Hs)].
  - destruct (startup_frame_boot _ _ _ Hf) as (_ & _ & _ & Ht).
    rewrite Forall_forall in Ht.
    split_and!; [done|..]; repeat intros ?;
      match goal with H : In _ _ |- _ => by apply list_elem_of_In, Ht in H end.
  - destruct (startup_frame_boot _ _ _ Hf) as (He0 & Hh0 & Hst0 & Ht0).
    destruct (serve_waiting platform finish_after stdin_task xiaozhi_task ota_task s0)
      as (s1 & Hs1 & Ht1); [done|done|by rewrite Hst0|].
    rewrite Hs in Hs1. inversion Hs1; subst. rewrite Ht1.
    split_and!; [done|..]; repeat intros ?;
      match goal with H : In _ _ |- _ =>
        apply In_startup in H; [|done|by intros []];
        apply wait_events_In in H; by destruct H as [?|[?|?]]
      end.
Qed.

(** An instance of X7: SIGHUP and SIGUSR1 only. *)
Lemma X7_no_shutdown_without_cause_witness :
  let r := demo_main "linux" [Signal 1; Signal 10] in
  let tr := trace (snd r) in
  (∀ v, fst r ≠ Ret v) ∧
  ¬ In EStopEnter tr ∧ (∀ t, ¬ In (ECancel t) tr) ∧ (∀ m, ¬ In (EPrint m) tr).
Proof.
  apply (X7_no_shutdown_without_cause "linux" 0 demo_validate demo_int demo_collaborators
           demo_finish demo_config [Signal 1; Signal 10]).
  repeat constructor; discriminate.
Defined.

(** X8. A failure during startup is not cleaned up after. When a call into
    collaborator code does not return, [main] does not return either, and
    all it has done is startup: the tasks created so far are not cancelled,
    [stop()] is not called, no signal handler is registered and no stimulus
    is consumed. *)
Theorem X8_startup_failure platform urandom validate py_int collaborators finish_after s c :
  collaborators c ≠ Ret tt →
  let r := main platform urandom validate py_int collaborators finish_after s in
  (∀ v, fst r ≠ Ret v) ∧
  signal_handlers (snd r) = signal_handlers s ∧
  stimuli (snd r) = stimuli s ∧
  ∃ evs, trace (snd r) = trace s ++ evs ∧ Forall startup_event evs.
Proof.
  intros Hc r. subst r.
  destruct (main _ _ _ _ _ _ _) as [o s'] eqn:Hm. cbn [fst snd].
  apply main_inv in Hm. destruct Hm as [[Hf Hn]|(s0 & Hall & _)].
  - by destruct Hf as (_ & ? & ? & ?).
  - by destruct (Hc (Hall c)).
Qed.

(** An instance of X8: the HTTP server cannot be set up. *)
Lemma X8_startup_failure_witness :
  let collaborators c :=
    match c with
    | HttpServerInit => Raise (Exc OSError "address in use")
    | _ => Ret tt
    end in
  let s := boot demo_config [Signal SIGINT] in
  let r := main "linux" 0 demo_validate demo_int collaborators demo_finish s in
  (∀ v, fst r ≠ Ret v) ∧
  signal_handlers (snd r) = signal_handlers s ∧
  stimuli (snd r) = stimuli s ∧
  ∃ evs, trace (snd r) = trace s ++ evs ∧ Forall startup_event evs.
Proof.
  intros collaborators s.
  apply (X8_startup_failure "linux" 0 demo_validate demo_int collaborators demo_finish s
           HttpServerInit).
  discriminate.
Defined.

(** X9. How the wait ends. On a loop with no event and no handler, the
    first stimulus that does not leave [wait_for_exit] suspended decides:
    SIGINT or SIGTERM off Windows makes it return; what is thrown into it is
    raised by it, [KeyboardInterrupt] included, except on Windows, where
    [KeyboardInterrupt], and nothing else, is caught. What comes later is
    left for the awaits that follow. *)
Theorem X9_how_the_wait_ends platform s pre x post :
  events s = [] →
  signal_handlers s = ∅ →
  stimuli s = pre ++ x :: post →
  Forall (leaves_waiting platform) pre →
  ends_wait platform x →
  ∃ s', wait_for_exit platform s = (wait_result platform x, s') ∧
        stimuli s' = post ∧
        config s' = config s ∧
        trace s' = trace s ++ wait_events platform (wait_result platform x).
Proof.
  intros Hev Hh Hst Hpre Hx.
  destruct (wait_for_exit_outcome platform s pre x post Hev Hh Hst Hpre Hx) as (s' & Hw & Hs).
  destruct (wait_for_exit_shape _ _ _ _ Hev Hw) as (Hc & Ht & _).
  by exists s'.
Qed.

(** An instance of X9: off Windows a [KeyboardInterrupt] is not caught. *)
Lemma X9_how_the_wait_ends_witness :
  let e := Exc KeyboardInterrupt EmptyString in
  let s := boot demo_config ([Signal 1] ++ Throw e :: [Signal SIGINT]) in
  ∃ s', wait_for_exit "linux" s = (wait_result "linux" (Throw e), s') ∧
        stimuli s' = [Signal SIGINT] ∧
        config s' = config s ∧
        trace s' = trace s ++ wait_events "linux" (wait_result "linux" (Throw e)).
Proof.
  intros e s.
  apply (X9_how_the_wait_ends "linux" s [Signal 1] (Throw e) [Signal SIGINT]).
  - reflexivity.
  - reflexivity.
  - reflexivity.
  - repeat constructor; discriminate.
  - exact I.
Defined.

(** ** Configurations off the beaten track *)

Lemma main_auth_failure platform urandom validate py_int collaborators finish_after s e s' :
  derive_auth_key urandom s = (Raise e, s') →
  main platform urandom validate py_int collaborators finish_after s = (Raise e, s').
Proof. intros H. unfold main. rewrite bind_eq. by rewrite H. Qed.

(** X10. The [server] section is required. When the configuration has no
    [server] entry that is a mapping, [main] raises before it creates any
    task, and leaves the whole state as it found it; with a secret of the
    expected type and no [server] entry at all, the exception is
    [KeyError: 'server']. *)
Theorem X10_server_section_required platform urandom validate py_int collaborators
    finish_after s :
  (∀ d, config s !! "server" ≠ Some (VDict d)) →
  ∃ e, main platform urandom validate py_int collaborators finish_after s = (Raise e, s) ∧
       (config s !! "server" = None → configured_secret (config s) ≠ None →
        e = Exc KeyError "'server'").
Proof.
  intros Hsrv.
  assert (Hset : ∀ v, ∃ e,
            config_setitem_in "server" "auth_key" v s = (Raise e, s) ∧
            (config s !! "server" = None → e = Exc KeyError "'server'")).
  { intros v. unfold config_setitem_in.
    destruct (config s !! "server") as [[| | | | |d]|]; try (eexists; split; done).
    by destruct (Hsrv d). }
  pose (stored := λ v : pyval, I).
  assert (Hfin : ∀ v (P : Prop), ∃ e,
            config_setitem_in "server" "auth_key" v s = (Raise e, s) ∧
            (config s !! "server" = None → P → e = Exc KeyError "'server'")).
  { intros v P. destruct (Hset v) as (e & H1 & H2). exists e. split; [done|]. auto. }
  clear Hset stored.
  assert (Hd : ∃ e, derive_auth_key urandom s = (Raise e, s) ∧
            (config s !! "server" = None → configured_secret (config s) ≠ None →
             e = Exc KeyError "'server'")).
  { unfold derive_auth_key, configured_secret.
    rewrite bind_eq. unfold config_get. cbn beta iota.
    destruct (config s !! "manager-api") as [[| | | | |m]|] eqn:Hm; simpl;
      try (eexists; split; [reflexivity|]; by intros _ []).
    - rewrite bind_eq. unfold lift at 1. cbn beta iota.
      destruct (m !! "secret") as [[|b|n|sec|l|d]|] eqn:Hs; simpl.
      + rewrite bind_eq. simpl. apply Hfin.
      + destruct b; simpl; rewrite bind_eq; simpl; [|apply Hfin].
        eexists; split; [reflexivity|]. by intros _ [].
      + destruct (n =? 0)%Z; simpl; rewrite bind_eq; simpl; [apply Hfin|].
        eexists; split; [reflexivity|]. by intros _ [].
      + destruct (negb (String.eqb sec EmptyString)); simpl.
        * rewrite !bind_eq. simpl. destruct (str_len sec =? 0)%Z; simpl; [apply Hfin|].
          destruct (str_in marker sec); apply Hfin.
        * rewrite bind_eq. simpl. apply Hfin.
      + destruct l as [|x l]; simpl.
        * rewrite bind_eq. simpl. apply Hfin.
        * rewrite !bind_eq. simpl.
          destruct (Z.of_nat (S (length l)) =? 0)%Z; simpl; [apply Hfin|].
          destruct (existsb (is_str marker) (x :: l)); apply Hfin.
      + destruct (negb (Nat.eqb (size d) 0)); simpl.
        * rewrite !bind_eq. simpl. destruct (Z.of_nat (size d) =? 0)%Z; simpl; [apply Hfin|].
          destruct (bool_decide (is_Some (d !! marker))); apply Hfin.
        * rewrite bind_eq. simpl. apply Hfin.
      + rewrite bind_eq. simpl. apply Hfin.
    - rewrite bind_eq. simpl. rewrite bind_eq. simpl. apply Hfin. }
  destruct Hd as (e & Hd & He). exists e. split; [|done].
  by apply main_auth_failure.
Qed.

(** An instance of X10. *)
Lemma X10_server_section_required_witness :
  let s := boot {[ "manager-api" := VDict {[ "secret" := VStr "s3cret" ]} ]} [Signal SIGINT] in
  ∃ e, main "linux" 0 demo_validate demo_int demo_collaborators demo_finish s = (Raise e, s) ∧
       (config s !! "server" = None → configured_secret (config s) ≠ None →
        e = Exc KeyError "'server'").
Proof.
  intros s.
  apply (X10_server_section_required "linux" 0 demo_validate demo_int demo_collaborators
           demo_finish s).
  intros d. vm_compute. discriminate.
Defined.

(** X11. A secret that YAML reads as a number stops the start. When the
    [manager-api] secret is a non-zero integer, or [true], the test
    [len(auth_key)] raises [TypeError]; [main] ends with it before creating
    any task, the state untouched. *)
Theorem X11_numeric_secret platform urandom validate py_int collaborators finish_after
    s m v :
  config s !! "manager-api" = Some (VDict m) →
  m !! "secret" = Some v →
  v = VBool true ∨ (∃ n, v = VInt n ∧ n ≠ 0%Z) →
  main platform urandom validate py_int collaborators finish_after s =
    (Raise (Exc TypeError ("object of type '" +:+ type_name v +:+ "' has no len()")), s).
Proof.
  intros Hm Hs Hv. apply main_auth_failure.
  unfold derive_auth_key. rewrite bind_eq. unfold config_get. cbn beta iota.
  rewrite Hm. simpl. rewrite bind_eq. unfold lift at 1. cbn beta iota. rewrite Hs.
  destruct Hv as [->|(n & -> & Hn)]; simpl.
  - rewrite bind_eq. simpl. done.
  - apply Z.eqb_neq in Hn. rewrite Hn. simpl. rewrite bind_eq. simpl. done.
Qed.

(** An instance of X11: [secret: 123456]. *)
Lemma X11_numeric_secret_witness :
  let s := boot {[ "server" := VDict ∅;
                   "manager-api" := VDict {[ "secret" := VInt 123456 ]} ]} [] in
  main "linux" 0 demo_validate demo_int demo_collaborators demo_finish s =
    (Raise (Exc TypeError "object of type 'int' has no len()"), s).
Proof.
  intros s.
  apply (X11_numeric_secret "linux" 0 demo_validate demo_int demo_collaborators demo_finish
           s {[ "secret" := VInt 123456 ]} (VInt 123456)).
  - reflexivity.
  - reflexivity.
  - right. exists 123456%Z. split; [reflexivity|discriminate].
Defined.

(** X12. A secret that is false in Python's sense, of whatever type ([0],
    [false], an empty list or mapping, as well as an empty string or a
    null), is replaced: after [main], however it ends, the [auth_key] of the
    [server] section is the generated key. *)
Theorem X12_falsy_secret platform urandom validate py_int collaborators finish_after
    cfg st srv m v :
  cfg !! "server" = Some (VDict srv) →
  cfg !! "manager-api" = Some (VDict m) →
  m !! "secret" = Some v →
  truthy v = false →
  config (snd (main platform urandom validate py_int collaborators finish_after
                 (boot cfg st))) !! "server"
    = Some (VDict (<["auth_key" := VStr (uuid4_hex urandom)]> srv)).
Proof.
  intros Hsrv Hm Hs Hv.
  destruct (main _ _ _ _ _ _ _) as [r s'] eqn:Hmain. cbn [snd].
  apply main_config in Hmain; [|done]. destruct Hmain as (r1 & s1 & Hd & Hmcp).
  assert (Hkey : derive_auth_key urandom (boot cfg st) =
            (Ret tt,
             set_config
               (<["server" := VDict (<["auth_key" := VStr (uuid4_hex urandom)]> srv)]> cfg)
               (boot cfg st))).
  { unfold derive_auth_key. rewrite bind_eq. unfold config_get. cbn beta iota.
    simpl. rewrite Hm. simpl. rewrite bind_eq. unfold lift at 1. cbn beta iota.
    rewrite Hs. simpl. rewrite bind_eq, Hv. simpl.
    unfold config_setitem_in. simpl. by rewrite Hsrv. }
  rewrite Hkey in Hd. inversion Hd; subst. simpl in Hmcp.
  rewrite (mcp_rewritten_other _ _ _ _ Hmcp) by done. by rewrite lookup_insert_eq.
Qed.

(** An instance of X12: [secret: 0]. *)
Lemma X12_falsy_secret_witness :
  let cfg : gmap string pyval :=
    {[ "server" := VDict ∅; "manager-api" := VDict {[ "secret" := VInt 0 ]} ]} in
  config (snd (main "linux" 7 demo_validate demo_int demo_collaborators demo_finish
                 (boot cfg []))) !! "server"
    = Some (VDict (<["auth_key" := VStr (uuid4_hex 7)]> ∅)).
Proof.
  intros cfg.
  apply (X12_falsy_secret "linux" 7 demo_validate demo_int demo_collaborators demo_finish
           cfg [] ∅ {[ "secret" := VInt 0 ]} (VInt 0)).
  - reflexivity.
  - reflexivity.
  - reflexivity.
  - reflexivity.
Defined.

Lemma str_in_cons needle c rest :
  str_in needle (String c rest) = String.prefix needle (String c rest) || str_in needle rest.
Proof. reflexivity. Qed.

Lemma replace_scan_absent old new s :
  str_in old s = false → replace_scan old new 0 s = s.
Proof.
  induction s as [|c rest IH]; [done|].
  rewrite str_in_cons. intros H. apply orb_false_elim in H. destruct H as [Hp Hr].
  cbn [replace_scan]. rewrite Hp. by rewrite IH.
Qed.

Lemma str_replace_absent old new s :
  str_in old s = false → str_replace old new s = s.
Proof.
  intros H. destruct old as [|c old]; [by destruct s|].
  by apply replace_scan_absent.
Qed.

#[local] Arguments str_replace : simpl never.

(** X13. A valid endpoint that holds no [/mcp/] goes through the endpoint
    step unchanged: the step returns and leaves the state, the
    configuration with it, as it was. *)
Theorem X13_endpoint_without_mcp_kept validate s ep :
  config s !! "mcp_endpoint" = Some (VStr ep) →
  str_in marker ep = false →
  validate (VStr ep) = Ret true →
  str_in "/mcp/" ep = false →
  rewrite_mcp_endpoint validate s = (Ret tt, s).
Proof.
  intros Hep Hmk Hv Hno. unfold rewrite_mcp_endpoint.
  rewrite bind_eq. unfold config_get. cbn beta iota. rewrite Hep. simpl.
  rewrite !bind_eq. simpl. rewrite Hmk. simpl. rewrite bind_eq. unfold lift at 1.
  cbn beta iota. rewrite Hv.
  rewrite bind_eq. unfold lift, py_replace. cbn beta iota.
  rewrite str_replace_absent by done.
  unfold config_setitem. rewrite insert_id by done. by destruct s.
Qed.

(** An instance of X13: an endpoint that is a call address already. *)
Lemma X13_endpoint_without_mcp_kept_witness :
  let s := boot {[ "mcp_endpoint" := VStr "ws://host/call/?token=abc" ]} [] in
  rewrite_mcp_endpoint demo_validate s = (Ret tt, s).
Proof.
  intros s.
  apply (X13_endpoint_without_mcp_kept demo_validate s "ws://host/call/?token=abc").
  - reflexivity.
  - reflexivity.
  - reflexivity.
  - reflexivity.
Defined.
